(** * lumen_browser: a shallow embedding of [lumen.py]

    The program is a PySide6 browser shell.  This development embeds the
    parts of [lumen.py] that carry behaviour of their own: the ad-blocking
    interceptor ([AdBlocker]), the window controller ([Browser]) with its
    tab list, history and bookmark store, and the operating-system and
    [json] services those methods call.

    Conventions.
    - A Python [str] is a sequence of Unicode code points: [list N].
      [py "..."] turns a literal of the source into that representation.
    - Widgets that only display (status bar, progress bar, action
      enabled/disabled state, tab captions, dialogs) are left out.
    - The rendering engine is external: the URL a view reports and the
      signals it emits enter the model as events. *)

From Stdlib Require Import NArith ZArith Lia List Ascii String Bool.
From stdpp Require Import base option list strings gmap.
Import ListNotations.

Local Open Scope N_scope.

(* ================================================================== *)
(** * Python strings *)
(* ================================================================== *)

Module Py.

(** [str]: code points, in order. *)
Abbreviation str := (list N).

(** A source literal as a [str]. *)
Definition py (s : string) : str :=
  List.map N_of_ascii (list_ascii_of_string s).

(** [s.startswith(prefix)]. *)
Fixpoint startswith (s prefix : str) {struct prefix} : bool :=
  match prefix, s with
  | [], _ => true
  | _ :: _, [] => false
  | c :: prefix', d :: s' => (c =? d) && startswith s' prefix'
  end.

(** [sub in s] for two strings: [sub] occurs in [s] as a contiguous run. *)
Fixpoint str_contains (s sub : str) : bool :=
  startswith s sub ||
  match s with
  | [] => false
  | _ :: s' => str_contains s' sub
  end.

(** [s.startswith((p1, p2, ...))]: a tuple of prefixes. *)
Definition startswith_any (s : str) (prefixes : list str) : bool :=
  existsb (startswith s) prefixes.

(** [str.isspace] on one code point (the characters [str.strip()] removes
    when called without argument): the Unicode white-space code points. *)
Definition isspace (c : N) : bool :=
  ((9 <=? c) && (c <=? 13)) || ((28 <=? c) && (c <=? 32)) ||
  (c =? 133) || (c =? 160) || (c =? 5760) ||
  ((8192 <=? c) && (c <=? 8202)) || (c =? 8232) || (c =? 8233) ||
  (c =? 8239) || (c =? 8287) || (c =? 12288).

(** [s.lstrip()], [s.rstrip()], [s.strip()]. *)
Fixpoint lstrip (s : str) : str :=
  match s with
  | c :: s' => if isspace c then lstrip s' else s
  | [] => []
  end.

Definition rstrip (s : str) : str := rev (lstrip (rev s)).

Definition strip (s : str) : str := rstrip (lstrip s).

(** [x == y] on strings, as a decision. *)
Definition str_eq_dec (x y : str) : {x = y} + {x <> y} := decide (x = y).

End Py.
Import Py.

(* ================================================================== *)
(** * Ad-blocking interceptor *)
(* ================================================================== *)

(** [class AdBlocker]: the only attribute is the block list. *)
Record AdBlocker := { blocklist : list str }.

(** [AdBlocker.__init__]. *)
Definition AdBlocker_init : AdBlocker :=
  {| blocklist :=
       [ py "doubleclick.net";
         py "googlesyndication.com";
         py "adservice.google.";
         py "ads.youtube.com";
         py "ads.yahoo.";
         py "taboola.com";
         py "outbrain.com";
         py "facebook.com/tr/";
         py "pixel." ] |}.

(** [QWebEngineUrlRequestInfo] as this layer sees it: the request URL as
    text ([info.requestUrl().toString()]) and the flag [info.block] sets. *)
Record QWebEngineUrlRequestInfo := {
  requestUrl : str;
  blocked : bool
}.

Definition block (b : bool) (info : QWebEngineUrlRequestInfo) :
  QWebEngineUrlRequestInfo :=
  {| requestUrl := requestUrl info; blocked := b |}.

(** [AdBlocker.interceptRequest]. [any(p in url for p in self.blocklist)]
    is [existsb]; both stop at the first rule that matches. *)
Definition interceptRequest (self : AdBlocker)
    (info : QWebEngineUrlRequestInfo) : QWebEngineUrlRequestInfo :=
  if existsb (fun p => str_contains (requestUrl info) p) (blocklist self)
  then block true info
  else block false info.

(** A fresh request for [url], not yet decided. *)
Definition request (url : str) : QWebEngineUrlRequestInfo :=
  {| requestUrl := url; blocked := false |}.

(** The decision the hook delivers for [url] under the rules [R]. *)
Definition decision (R : list str) (url : str) : bool :=
  blocked (interceptRequest {| blocklist := R |} (request url)).

(* ================================================================== *)
(** * Exceptions, and code that both raises and mutates *)
(* ================================================================== *)

(** The exception classes the modelled calls raise.  All of them derive
    from [Exception]; the first five derive from [OSError]. *)
Inductive exn :=
| FileNotFoundError
| FileExistsError
| NotADirectoryError
| IsADirectoryError
| PermissionError
| UnicodeDecodeError
| JSONDecodeError
| TypeError
| AttributeError.

Definition is_OSError (e : exn) : bool :=
  match e with
  | FileNotFoundError | FileExistsError | NotADirectoryError
  | IsADirectoryError | PermissionError => true
  | _ => false
  end.

Definition is_FileExistsError (e : exn) : bool :=
  match e with FileExistsError => true | _ => false end.

(** [except Exception]: every class above is caught. *)
Definition is_Exception (e : exn) : bool := true.

Inductive result (A : Type) :=
| Ok (a : A)
| Raise (e : exn).
Arguments Ok {A} a.
Arguments Raise {A} e.

(** A computation over a mutable state [S]: it ends with a value or with
    an exception, and the state it has reached is kept either way (what
    Python code had mutated before it raised stays mutated). *)
Definition M (S A : Type) : Type := S -> result A * S.

Definition ret {S A} (a : A) : M S A := fun s => (Ok a, s).

Definition raise {S A} (e : exn) : M S A := fun s => (Raise e, s).

Definition bind {S A B} (m : M S A) (k : A -> M S B) : M S B :=
  fun s =>
    match m s with
    | (Ok a, s') => k a s'
    | (Raise e, s') => (Raise e, s')
    end.

Definition gets {S A} (f : S -> A) : M S A := fun s => (Ok (f s), s).

Definition modify {S} (f : S -> S) : M S unit := fun s => (Ok tt, f s).

(** [try: m  except <classes>: h]: an exception of a class outside
    [classes] passes through. *)
Definition try_except {S A} (m : M S A) (classes : exn -> bool)
    (h : exn -> M S A) : M S A :=
  fun s =>
    match m s with
    | (Ok a, s') => (Ok a, s')
    | (Raise e, s') => if classes e then h e s' else (Raise e, s')
    end.

Declare Scope py_scope.
Delimit Scope py_scope with py.
Notation "x <- m ;; k" := (bind m (fun x => k))
  (at level 100, m at next level, right associativity) : py_scope.
Notation "m ;; k" := (bind m (fun _ => k))
  (at level 100, right associativity) : py_scope.
Local Open Scope py_scope.

(* ================================================================== *)
(** * The file system, as [os] and [open] see it *)
(* ================================================================== *)

(** A path is its list of components below the file-system root;
    [os.path.join] appends components and [os.path.dirname] drops the
    last one, whatever the platform's separator is. *)
Abbreviation path := (list string).

Definition os_path_join (p : path) (names : list string) : path := p ++ names.

Definition dirname (p : path) : path := removelast p.

(** What a regular file holds, as [open(p).read()] in text mode finds it:
    - [Locked]: the process may neither read nor write it;
    - [Undecodable]: bytes that are not text in the locale's encoding;
    - [Text s]: the text [s]. *)
Inductive content :=
| Locked
| Undecodable
| Text (s : str).

Record filesystem := {
  dirs : gset path;            (* the directories, the root [[]] apart *)
  files : gmap path content    (* the regular files *)
}.

Definition isdir (fs : filesystem) (p : path) : bool :=
  bool_decide (p = [] \/ p ∈ dirs fs).

Definition isfile (fs : filesystem) (p : path) : bool :=
  bool_decide (is_Some (files fs !! p)).

(** [os.path.exists]. *)
Definition path_exists (fs : filesystem) (p : path) : bool :=
  isdir fs p || isfile fs p.

(** The disk once the directory [p] has been made, and once the file
    [p] holds the text [s]. *)
Definition add_dir (p : path) (fs : filesystem) : filesystem :=
  {| dirs := {[ p ]} ∪ dirs fs; files := files fs |}.

Definition put_file (p : path) (s : str) (fs : filesystem) : filesystem :=
  {| dirs := dirs fs; files := <[ p := Text s ]> (files fs) |}.

(** [os.mkdir(p)]. *)
Definition mkdir (p : path) : M filesystem unit :=
  fun fs =>
    if path_exists fs p then (Raise FileExistsError, fs)
    else if isdir fs (dirname p) then
      (Ok tt, add_dir p fs)
    else if isfile fs (dirname p) then (Raise NotADirectoryError, fs)
    else (Raise FileNotFoundError, fs).

(** [os.makedirs(name, exist_ok=True)], following the library's own
    recursion: [head, tail = path.split(name)]; when [head] does not exist
    it is made first (a [FileExistsError] from that call is passed over);
    then [mkdir(name)], whose [OSError] is re-raised unless [name] is a
    directory.  The recursion is on the components of [name] from the
    last one, so the argument is [name] reversed. *)
Fixpoint makedirs_rev (rname : list string) : M filesystem unit :=
  match rname with
  | [] => ret tt
  | _ :: rhead =>
      head_exists <- gets (fun fs => path_exists fs (rev rhead)) ;;
      (if head_exists then ret tt
       else try_except (makedirs_rev rhead) is_FileExistsError
                       (fun _ => ret tt)) ;;
      try_except (mkdir (rev rname)) is_OSError
        (fun e =>
           d <- gets (fun fs => isdir fs (rev rname)) ;;
           if d then ret tt else raise e)
  end.

Definition os_makedirs (name : path) : M filesystem unit :=
  makedirs_rev (rev name).

(** [open(p).read()], text mode. *)
Definition read_text (p : path) : M filesystem str :=
  fun fs =>
    if isdir fs p then (Raise IsADirectoryError, fs)
    else match files fs !! p with
         | None => (Raise FileNotFoundError, fs)
         | Some Locked => (Raise PermissionError, fs)
         | Some Undecodable => (Raise UnicodeDecodeError, fs)
         | Some (Text s) => (Ok s, fs)
         end.

(** [open(p, "w")] followed by writing the text [s] and closing: the
    file is created or replaced as a whole. *)
Definition write_text (p : path) (s : str) : M filesystem unit :=
  fun fs =>
    if isdir fs p then (Raise IsADirectoryError, fs)
    else if negb (isdir fs (dirname p)) then (Raise FileNotFoundError, fs)
    else match files fs !! p with
         | Some Locked => (Raise PermissionError, fs)
         | _ => (Ok tt, put_file p s fs)
         end.

(** [open(p, "w")] succeeds. *)
Definition writable (fs : filesystem) (p : path) : bool :=
  negb (isdir fs p) && isdir fs (dirname p) &&
  match files fs !! p with Some Locked => false | _ => true end.

(** What a call may have done to the disk [d] when it leaves [d']:
    no file touched, no directory removed, no directory added but
    prefixes of [name]. *)
Definition grown_towards (name : path) (d d' : filesystem) : Prop :=
  files d' = files d /\
  dirs d ⊆ dirs d' /\
  forall p, p ∈ dirs d' -> p ∈ dirs d \/ p `prefix_of` name.

(* ================================================================== *)
(** * The [json] module *)
(* ================================================================== *)

Module Json.

#[local] Set Warnings "-register-all".

(** The Python objects [json.load] builds.  A number is kept as the text
    it was read from (this program never computes with one); a [dict] is
    its items in insertion order, one per key. *)
Inductive pyobj :=
| PyNone
| PyBool (b : bool)
| PyNum (lexeme : str)
| PyStr (s : str)
| PyList (l : list pyobj)
| PyDict (items : list (str * pyobj)).

(** Code point of an ASCII character of the source. *)
Definition ord (c : ascii) : N := N_of_ascii c.

Definition QUOTE : N := 34.
Definition BACKSLASH : N := 92.

(** ** [json.dump] with the default options ([ensure_ascii=True],
       separators [", "] and [": "]) *)

Definition hex_digit (d : N) : N := if d <? 10 then 48 + d else 87 + d.

(** ['{0:04x}'.format(n)] for [n < 0x10000]. *)
Definition hex4 (n : N) : str :=
  [ hex_digit (n / 4096 mod 16); hex_digit (n / 256 mod 16);
    hex_digit (n / 16 mod 16); hex_digit (n mod 16) ].

Definition u_escape (n : N) : str := BACKSLASH :: ord "u" :: hex4 n.

(** The replacement [encode_basestring_ascii] makes for one character:
    the short escapes of [ESCAPE_DCT], printable ASCII as it is, and
    [\uXXXX] for the rest, as a surrogate pair above the basic plane. *)
Definition escape_char (c : N) : str :=
  if c =? QUOTE then [BACKSLASH; QUOTE]
  else if c =? BACKSLASH then [BACKSLASH; BACKSLASH]
  else if c =? 8 then [BACKSLASH; ord "b"]
  else if c =? 12 then [BACKSLASH; ord "f"]
  else if c =? 10 then [BACKSLASH; ord "n"]
  else if c =? 13 then [BACKSLASH; ord "r"]
  else if c =? 9 then [BACKSLASH; ord "t"]
  else if (32 <=? c) && (c <=? 126) then [c]
  else if c <? 65536 then u_escape c
  else
    let v := c - 65536 in
    u_escape (N.lor 55296 (N.land (N.shiftr v 10) 1023)) ++
    u_escape (N.lor 56320 (N.land v 1023)).

Definition encode_basestring_ascii (s : str) : str :=
  QUOTE :: flat_map escape_char s ++ [QUOTE].

(** [sep.join(chunks)]. *)
Fixpoint join (sep : str) (chunks : list str) : str :=
  match chunks with
  | [] => []
  | [x] => x
  | x :: rest => x ++ sep ++ join sep rest
  end.

(** The text [json.dump] writes.  A number is written as the text it was
    read from; Python writes its [repr], which can spell the same number
    differently. *)
Fixpoint dumps (v : pyobj) : str :=
  match v with
  | PyNone => py "null"
  | PyBool true => py "true"
  | PyBool false => py "false"
  | PyNum lexeme => lexeme
  | PyStr s => encode_basestring_ascii s
  | PyList l => py "[" ++ join (py ", ") (List.map dumps l) ++ py "]"
  | PyDict items =>
      py "{" ++
      join (py ", ")
        (List.map (fun kv => encode_basestring_ascii (fst kv) ++
                             py ": " ++ dumps (snd kv)) items) ++
      py "}"
  end.

(** ** [json.load]: the decoder *)

Definition is_ws (c : N) : bool :=
  (c =? 32) || (c =? 9) || (c =? 10) || (c =? 13).

Fixpoint skip_ws (s : str) : str :=
  match s with
  | c :: s' => if is_ws c then skip_ws s' else s
  | [] => []
  end.

Definition is_digit (c : N) : bool := (48 <=? c) && (c <=? 57).

Definition unhex (c : N) : option N :=
  if is_digit c then Some (c - 48)
  else if (97 <=? c) && (c <=? 102) then Some (c - 87)
  else if (65 <=? c) && (c <=? 70) then Some (c - 55)
  else None.

(** The four hexadecimal digits of a [\uXXXX] escape. *)
Definition decode_uXXXX (h1 h2 h3 h4 : N) : option N :=
  match unhex h1, unhex h2, unhex h3, unhex h4 with
  | Some a, Some b, Some c, Some d => Some (4096 * a + 256 * b + 16 * c + d)
  | _, _, _, _ => None
  end.

(** The decoder's table [BACKSLASH] of one-letter escapes. *)
Definition unescape (e : N) : option N :=
  if e =? QUOTE then Some QUOTE
  else if e =? BACKSLASH then Some BACKSLASH
  else if e =? ord "/" then Some (ord "/")
  else if e =? ord "b" then Some 8
  else if e =? ord "f" then Some 12
  else if e =? ord "n" then Some 10
  else if e =? ord "r" then Some 13
  else if e =? ord "t" then Some 9
  else None.

Definition is_high_surrogate (u : N) : bool := (55296 <=? u) && (u <=? 56319).
Definition is_low_surrogate (u : N) : bool := (56320 <=? u) && (u <=? 57343).

Definition push (c : N) (r : option (str * str)) : option (str * str) :=
  match r with
  | Some (t, rest) => Some (c :: t, rest)
  | None => None
  end.

(** [scanstring] in strict mode, from just after the opening quote: the
    decoded text and the input after the closing quote.  A raw control
    character, an unknown escape or a missing closing quote is an error;
    a [\uXXXX] high surrogate directly followed by a [\uXXXX] low
    surrogate is read as the one code point they encode. *)
Fixpoint scanstring (s : str) : option (str * str) :=
  match s with
  | [] => None
  | c :: s1 =>
    if c =? QUOTE then Some ([], s1)
    else if c =? BACKSLASH then
      match s1 with
      | [] => None
      | e :: s2 =>
        if e =? ord "u" then
          match s2 with
          | h1 :: h2 :: h3 :: h4 :: s3 =>
            match decode_uXXXX h1 h2 h3 h4 with
            | None => None
            | Some uni =>
              match s3 with
              | b :: u :: s4 =>
                if is_high_surrogate uni && (b =? BACKSLASH) && (u =? ord "u")
                then
                  match s4 with
                  | g1 :: g2 :: g3 :: g4 :: s5 =>
                    match decode_uXXXX g1 g2 g3 g4 with
                    | None => None
                    | Some uni2 =>
                      if is_low_surrogate uni2 then
                        push (65536 + N.lor (N.shiftl (uni - 55296) 10)
                                              (uni2 - 56320))
                             (scanstring s5)
                      else push uni (scanstring s3)
                    end
                  | _ => None
                  end
                else push uni (scanstring s3)
              | _ => push uni (scanstring s3)
              end
            end
          | _ => None
          end
        else
          match unescape e with
          | Some ch => push ch (scanstring s2)
          | None => None
          end
      end
    else if c <? 32 then None
    else push c (scanstring s1)
  end.

(** The longest run of decimal digits at the head of [s], and the rest. *)
Fixpoint span_digits (s : str) : str * str :=
  match s with
  | c :: s' =>
    if is_digit c then let '(ds, r) := span_digits s' in (c :: ds, r)
    else ([], s)
  | [] => ([], [])
  end.

(** [NUMBER_RE], matched at the head of [s]: an integer part (an optional
    minus sign, then a single zero or a digit from 1 to 9 followed by any
    digits), an optional fraction (a dot and at least one digit) and an
    optional exponent (e or E, an optional sign, at least one digit).
    The result is the text matched and the rest. *)
Definition scan_int (s : str) : option (str * str) :=
  let '(sign, s1) :=
    match s with
    | c :: s' => if c =? ord "-" then ([c], s') else ([], s)
    | [] => ([], s)
    end in
  match s1 with
  | d :: r =>
    if d =? ord "0" then Some (sign ++ [d], r)
    else if is_digit d then
      let '(ds, r') := span_digits r in Some (sign ++ d :: ds, r')
    else None
  | [] => None
  end.

Definition scan_frac (s : str) : str * str :=
  match s with
  | c :: s' =>
    if c =? ord "." then
      match span_digits s' with
      | ([], _) => ([], s)
      | (ds, r) => (c :: ds, r)
      end
    else ([], s)
  | [] => ([], s)
  end.

Definition scan_exp (s : str) : str * str :=
  match s with
  | c :: s' =>
    if (c =? ord "e") || (c =? ord "E") then
      let '(sign, s1) :=
        match s' with
        | g :: s'' =>
          if (g =? ord "-") || (g =? ord "+") then ([g], s'') else ([], s')
        | [] => ([], s')
        end in
      match span_digits s1 with
      | ([], _) => ([], s)
      | (ds, r) => (c :: sign ++ ds, r)
      end
    else ([], s)
  | [] => ([], s)
  end.

Definition match_number (s : str) : option (str * str) :=
  match scan_int s with
  | None => None
  | Some (i, r1) =>
    let '(f, r2) := scan_frac r1 in
    let '(e, r3) := scan_exp r2 in
    Some (i ++ f ++ e, r3)
  end.

(** [d[key] = value] on the items of a [dict]. *)
Fixpoint dict_set (items : list (str * pyobj)) (key : str) (value : pyobj) :
    list (str * pyobj) :=
  match items with
  | [] => [(key, value)]
  | (k, v) :: rest =>
    if bool_decide (k = key) then (k, value) :: rest
    else (k, v) :: dict_set rest key value
  end.

(** A constant of the grammar at the head of the input. *)
Definition literal (s : str) (word : string) (v : pyobj) :
    option (pyobj * str) :=
  if startswith s (py word)
  then Some (v, drop (String.length word) s)
  else None.

(** The values [scan_once] reads without descending: the constants and
    the numbers, tried in the order of the scanner. *)
Definition scan_flat (s : str) : option (pyobj * str) :=
  match literal s "null" PyNone with
  | Some x => Some x
  | None =>
  match literal s "true" (PyBool true) with
  | Some x => Some x
  | None =>
  match literal s "false" (PyBool false) with
  | Some x => Some x
  | None =>
  match match_number s with
  | Some (lexeme, r) => Some (PyNum lexeme, r)
  | None =>
  match literal s "NaN" (PyNum (py "NaN")) with
  | Some x => Some x
  | None =>
  match literal s "Infinity" (PyNum (py "Infinity")) with
  | Some x => Some x
  | None => literal s "-Infinity" (PyNum (py "-Infinity"))
  end end end end end end.

(** [scan_once], with the loops of [JSONArray] and [JSONObject].  The
    recursion of the decoder is on the nesting of the text; here it is on
    [fuel], which [loads] provides from the length of the text.
    [array_loop] starts at an element, [object_loop] just after the
    opening quote of a key; [acc] is what the loop has read so far. *)
Fixpoint scan_once (fuel : nat) (s : str) {struct fuel} :
    option (pyobj * str) :=
  match fuel with
  | O => None
  | S fuel' =>
    match s with
    | [] => None
    | c :: s' =>
      if c =? QUOTE then
        match scanstring s' with
        | Some (t, r) => Some (PyStr t, r)
        | None => None
        end
      else if c =? ord "{" then
        match skip_ws s' with
        | d :: r =>
          if d =? ord "}" then Some (PyDict [], r)
          else if d =? QUOTE then object_loop fuel' r []
          else None
        | [] => None
        end
      else if c =? ord "[" then
        match skip_ws s' with
        | d :: r =>
          if d =? ord "]" then Some (PyList [], r)
          else array_loop fuel' (d :: r) []
        | [] => None
        end
      else scan_flat s
    end
  end
with array_loop (fuel : nat) (s : str) (acc : list pyobj) {struct fuel} :
    option (pyobj * str) :=
  match fuel with
  | O => None
  | S fuel' =>
    match scan_once fuel' s with
    | None => None
    | Some (v, r) =>
      match skip_ws r with
      | d :: r' =>
        if d =? ord "]" then Some (PyList (acc ++ [v]), r')
        else if d =? ord "," then array_loop fuel' (skip_ws r') (acc ++ [v])
        else None
      | [] => None
      end
    end
  end
with object_loop (fuel : nat) (s : str) (acc : list (str * pyobj))
    {struct fuel} : option (pyobj * str) :=
  match fuel with
  | O => None
  | S fuel' =>
    match scanstring s with
    | None => None
    | Some (key, r) =>
      match skip_ws r with
      | d :: r1 =>
        if d =? ord ":" then
          match scan_once fuel' (skip_ws r1) with
          | None => None
          | Some (v, r2) =>
            match skip_ws r2 with
            | d2 :: r3 =>
              if d2 =? ord "}" then Some (PyDict (dict_set acc key v), r3)
              else if d2 =? ord "," then
                match skip_ws r3 with
                | q :: r4 =>
                  if q =? QUOTE
                  then object_loop fuel' r4 (dict_set acc key v)
                  else None
                | [] => None
                end
              else None
            | [] => None
            end
          end
        else None
      | [] => None
      end
    end
  end.

(** Fuel that covers every text of the same length: a call of
    [scan_once] or of a loop reads at least one character before it
    descends, and descends by at most two calls per character
    ([loads_has_enough_fuel] below). *)
Definition fuel_for (s : str) : nat := 2 * length s + 2.

(** [json.loads(s)]: one value, white space around it, nothing else. *)
Definition loads (s : str) : result pyobj :=
  match scan_once (fuel_for s) (skip_ws s) with
  | Some (v, r) =>
    match skip_ws r with
    | [] => Ok v
    | _ :: _ => Raise JSONDecodeError
    end
  | None => Raise JSONDecodeError
  end.

(** ** Strings that survive the passage through [\uXXXX] escapes *)

(** Code points below [0x110000] with no high surrogate directly followed
    by a low surrogate.  A string that has passed through UTF-16 (every
    string the toolkit delivers) is of this kind, and so is every string
    of Unicode scalar values, such as text decoded from a file. *)
Fixpoint well_formed (s : str) : bool :=
  match s with
  | [] => true
  | c :: s' =>
    (c <? 1114112) &&
    negb (is_high_surrogate c &&
          match s' with
          | c2 :: _ => is_low_surrogate c2
          | [] => false
          end) &&
    well_formed s'
  end.

(** Unicode scalar values: code points below [0x110000] that are no
    surrogates. *)
Definition scalar (c : N) : bool :=
  (c <? 55296) || ((57344 <=? c) && (c <? 1114112)).

Definition scalar_text (s : str) : bool := forallb scalar s.

(** True when [scanstring], having read a [\uXXXX] high surrogate, does
    not keep it as it is: the input goes on with [\u], followed by the
    four hexadecimal digits of a low surrogate (the two are joined) or by
    something that is not four hexadecimal digits (an error). *)
Definition low_escape_ahead (tail : str) : bool :=
  match tail with
  | b :: u :: s4 =>
    if (b =? BACKSLASH) && (u =? ord "u") then
      match s4 with
      | g1 :: g2 :: g3 :: g4 :: _ =>
        match decode_uXXXX g1 g2 g3 g4 with
        | Some x => is_low_surrogate x
        | None => true
        end
      | _ => true
      end
    else false
  | _ => false
  end.

End Json.
Import Json.

(* ================================================================== *)
(** * Python containers as [add_bookmark] uses them *)
(* ================================================================== *)

(** [x == y] for a loaded object [x] and a string [y]. *)
Definition eq_str (x : pyobj) (y : str) : bool :=
  match x with
  | PyStr s => bool_decide (s = y)
  | _ => false
  end.

(** [x in container], for a string [x]: membership in a list, key
    lookup in a dict, substring test in a string, [TypeError] on the
    objects that are no containers. *)
Definition py_contains {S} (container : pyobj) (x : str) : M S bool :=
  match container with
  | PyList l => ret (existsb (fun e => eq_str e x) l)
  | PyDict items => ret (existsb (fun kv => bool_decide (fst kv = x)) items)
  | PyStr s => ret (str_contains s x)
  | PyNone | PyBool _ | PyNum _ => raise TypeError
  end.

(** [container.append(x)]: only a list has the method. *)
Definition py_append {S} (container : pyobj) (x : str) : M S pyobj :=
  match container with
  | PyList l => ret (PyList (l ++ [PyStr x]))
  | _ => raise AttributeError
  end.

(** A Python list of strings. *)
Definition str_list (B : list str) : pyobj := PyList (List.map PyStr B).

(* ================================================================== *)
(** * Engine objects this layer configures *)
(* ================================================================== *)

Inductive PersistentCookiesPolicy :=
| NoPersistentCookies
| AllowPersistentCookies
| ForcePersistentCookies.

(** [QWebEngineProfile]: what this layer sets on it.  [storageName] is
    [None] for the off-the-record profile [QWebEngineProfile(parent)];
    a path or user agent that is [None] has not been set here. *)
Record QWebEngineProfile := {
  storageName : option string;
  cachePath : option path;
  persistentStoragePath : option path;
  persistentCookiesPolicy : PersistentCookiesPolicy;
  httpUserAgent : option str;
  urlRequestInterceptor : option AdBlocker
}.

Definition QWebEngineProfile_new (name : option string) : QWebEngineProfile :=
  {| storageName := name;
     cachePath := None;
     persistentStoragePath := None;
     persistentCookiesPolicy :=
       match name with
       | None => NoPersistentCookies
       | Some _ => AllowPersistentCookies
       end;
     httpUserAgent := None;
     urlRequestInterceptor := None |}.

Definition setCachePath (p : path) (pr : QWebEngineProfile) :=
  {| storageName := storageName pr;
     cachePath := Some p;
     persistentStoragePath := persistentStoragePath pr;
     persistentCookiesPolicy := persistentCookiesPolicy pr;
     httpUserAgent := httpUserAgent pr;
     urlRequestInterceptor := urlRequestInterceptor pr |}.

Definition setPersistentStoragePath (p : path) (pr : QWebEngineProfile) :=
  {| storageName := storageName pr;
     cachePath := cachePath pr;
     persistentStoragePath := Some p;
     persistentCookiesPolicy := persistentCookiesPolicy pr;
     httpUserAgent := httpUserAgent pr;
     urlRequestInterceptor := urlRequestInterceptor pr |}.

Definition setPersistentCookiesPolicy (c : PersistentCookiesPolicy)
    (pr : QWebEngineProfile) :=
  {| storageName := storageName pr;
     cachePath := cachePath pr;
     persistentStoragePath := persistentStoragePath pr;
     persistentCookiesPolicy := c;
     httpUserAgent := httpUserAgent pr;
     urlRequestInterceptor := urlRequestInterceptor pr |}.

Definition setHttpUserAgent (ua : str) (pr : QWebEngineProfile) :=
  {| storageName := storageName pr;
     cachePath := cachePath pr;
     persistentStoragePath := persistentStoragePath pr;
     persistentCookiesPolicy := persistentCookiesPolicy pr;
     httpUserAgent := Some ua;
     urlRequestInterceptor := urlRequestInterceptor pr |}.

Definition setUrlRequestInterceptor (a : AdBlocker) (pr : QWebEngineProfile) :=
  {| storageName := storageName pr;
     cachePath := cachePath pr;
     persistentStoragePath := persistentStoragePath pr;
     persistentCookiesPolicy := persistentCookiesPolicy pr;
     httpUserAgent := httpUserAgent pr;
     urlRequestInterceptor := Some a |}.

(** [QWebEngineView]: its page's profile and the URL last given to
    [setUrl]. *)
Record QWebEngineView := {
  page_profile : QWebEngineProfile;
  url : str
}.

(* ================================================================== *)
(** * The window: [class Browser] *)
(* ================================================================== *)

(** The attributes of a [Browser].  View objects live in [views] and are
    named by their position there; [tabs] (the [QTabWidget]) and [view]
    ([self.view]) hold such names, so both refer to the same objects. *)
Record Browser := {
  incognito : bool;
  views : list QWebEngineView;
  tabs : list nat;
  view : option nat;
  url_bar : str;
  downloads : list str;
  history : list str;
  bookmarks_path : path;
  bookmarks : pyobj
}.

Definition with_views (x : list QWebEngineView) (b : Browser) : Browser :=
  {| incognito := incognito b; views := x; tabs := tabs b; view := view b;
     url_bar := url_bar b; downloads := downloads b; history := history b;
     bookmarks_path := bookmarks_path b; bookmarks := bookmarks b |}.

Definition with_tabs (x : list nat) (b : Browser) : Browser :=
  {| incognito := incognito b; views := views b; tabs := x; view := view b;
     url_bar := url_bar b; downloads := downloads b; history := history b;
     bookmarks_path := bookmarks_path b; bookmarks := bookmarks b |}.

Definition with_view (x : option nat) (b : Browser) : Browser :=
  {| incognito := incognito b; views := views b; tabs := tabs b; view := x;
     url_bar := url_bar b; downloads := downloads b; history := history b;
     bookmarks_path := bookmarks_path b; bookmarks := bookmarks b |}.

Definition with_url_bar (x : str) (b : Browser) : Browser :=
  {| incognito := incognito b; views := views b; tabs := tabs b; view := view b;
     url_bar := x; downloads := downloads b; history := history b;
     bookmarks_path := bookmarks_path b; bookmarks := bookmarks b |}.

Definition with_downloads (x : list str) (b : Browser) : Browser :=
  {| incognito := incognito b; views := views b; tabs := tabs b; view := view b;
     url_bar := url_bar b; downloads := x; history := history b;
     bookmarks_path := bookmarks_path b; bookmarks := bookmarks b |}.

Definition with_history (x : list str) (b : Browser) : Browser :=
  {| incognito := incognito b; views := views b; tabs := tabs b; view := view b;
     url_bar := url_bar b; downloads := downloads b; history := x;
     bookmarks_path := bookmarks_path b; bookmarks := bookmarks b |}.

Definition with_bookmarks (x : pyobj) (b : Browser) : Browser :=
  {| incognito := incognito b; views := views b; tabs := tabs b; view := view b;
     url_bar := url_bar b; downloads := downloads b; history := history b;
     bookmarks_path := bookmarks_path b; bookmarks := x |}.

(** What a method of a window can mutate: the window and the disk. *)
Record world := {
  win : Browser;
  fs : filesystem
}.

Definition on_fs {A} (m : M filesystem A) : M world A :=
  fun w => let '(r, d) := m (fs w) in (r, {| win := win w; fs := d |}).

Definition self {A} (attr : Browser -> A) : M world A :=
  gets (fun w => attr (win w)).

Definition update (f : Browser -> Browser) : M world unit :=
  modify (fun w => {| win := f (win w); fs := fs w |}).

(** ** [QTabWidget] *)

(** [tabs.widget(index)]: [None] out of range. *)
Definition widget (index : Z) (l : list nat) : option nat :=
  if (0 <=? index)%Z then l !! Z.to_nat index else None.

(** [tabs.removeTab(index)]: nothing happens out of range. *)
Definition removeTab (index : Z) (l : list nat) : list nat :=
  if (0 <=? index)%Z then delete (Z.to_nat index) l else l.

(** ** Methods *)

Definition USER_AGENT : str :=
  py "Mozilla/5.0 (Windows NT 10.0; Win64; x64; rv:122.0) Gecko/20100101 Firefox/122.0".

Definition HOME_URL : str := py "https://www.google.com".

Section Lumen.

(** [os.path.expanduser("~")]. *)
Variable home : path.

(** [Browser._create_profile]. *)
Definition _create_profile : M world QWebEngineProfile :=
  incog <- self incognito ;;
  p <- (if incog : bool then
          ret (setPersistentCookiesPolicy NoPersistentCookies
                 (QWebEngineProfile_new None))
        else
          let root := os_path_join home [".pyside_browser_profile"] in
          on_fs (os_makedirs root) ;;
          ret (setPersistentCookiesPolicy ForcePersistentCookies
                 (setPersistentStoragePath (os_path_join root ["storage"])
                    (setCachePath (os_path_join root ["cache"])
                       (QWebEngineProfile_new (Some "user-profile")))))) ;;
  ret (setHttpUserAgent USER_AGENT p).

(** [self.view.history()], the one use [_update_nav_state] makes of
    [self.view]: an [AttributeError] when it is [None]. *)
Definition _update_nav_state : M world unit :=
  v <- self view ;;
  match v with
  | Some _ => ret tt
  | None => raise AttributeError
  end.

(** [Browser._on_url_changed]. *)
Definition _on_url_changed (url : str) : M world unit :=
  update (with_url_bar url) ;;
  incog <- self incognito ;;
  (if incog : bool then ret tt
   else
     h <- self history ;;
     if bool_decide (url ∈ h) then ret tt
     else update (with_history (h ++ [url]))) ;;
  _update_nav_state.

(** [Browser.new_tab].  Either spelling of the interceptor setter
    installs the blocker; [addTab] and [setCurrentWidget] make the new
    view current, and [self.view = view] names it. *)
Definition new_tab (url : str) : M world unit :=
  profile <- _create_profile ;;
  let blocker := AdBlocker_init in
  let profile := setUrlRequestInterceptor blocker profile in
  let v := {| page_profile := profile; url := url |} in
  update (fun b =>
            let id := length (views b) in
            with_view (Some id)
              (with_tabs (tabs b ++ [id]) (with_views (views b ++ [v]) b))).

(** [Browser.close_tab].  [widget.deleteLater()] leaves the disposal of
    the view to the toolkit; the tab widget forgets it at once. *)
Definition close_tab (index : Z) : M world unit :=
  update (fun b =>
            if (1 <? length (tabs b))%nat
            then with_tabs (removeTab index (tabs b)) b
            else b).

(** [Browser.tab_changed]. *)
Definition tab_changed (index : Z) : M world unit :=
  update (fun b => with_view (widget index (tabs b)) b) ;;
  _update_nav_state.

(** [self.view.setUrl(QUrl(url))]. *)
Definition view_setUrl (u : str) : M world unit :=
  v <- self view ;;
  match v with
  | None => raise AttributeError
  | Some id =>
      update (fun b =>
                with_views
                  (alter (fun x => {| page_profile := page_profile x;
                                      url := u |}) id (views b)) b)
  end.

(** The value of the local [url] of [go_to_url] when it reaches
    [setUrl], for the text [text] of the URL bar. *)
Definition go_to_url_target (text : str) : str :=
  let url := strip text in
  if negb (startswith_any url [py "http://"; py "https://"])
  then py "https://" ++ url
  else url.

(** [Browser.go_to_url]. *)
Definition go_to_url : M world unit :=
  text <- self url_bar ;;
  view_setUrl (go_to_url_target text).

(** [Browser.browser_home]. *)
Definition browser_home : M world unit := view_setUrl HOME_URL.

(** [Browser._handle_download], after the save dialog returned [dest]
    (empty when the user cancelled); the engine does the writing. *)
Definition _handle_download (dest : str) : M world unit :=
  match dest with
  | [] => ret tt
  | _ :: _ => update (fun b => with_downloads (downloads b ++ [dest]) b)
  end.

(** [Browser.add_bookmark]; [current] is [self.view.url().toString()],
    the URL the engine reports for the current view. *)
Definition add_bookmark (current : str) : M world unit :=
  match current with
  | [] => ret tt
  | _ :: _ =>
      b <- self bookmarks ;;
      present <- py_contains b current ;;
      if present : bool then ret tt
      else
        b' <- py_append b current ;;
        update (with_bookmarks b') ;;
        b'' <- self bookmarks ;;
        p <- self bookmarks_path ;;
        on_fs (write_text p (dumps b''))
  end.

(** [json.load(open(path))]. *)
Definition json_load (p : path) : M filesystem pyobj :=
  text <- read_text p ;;
  fun d => (loads text, d).

(** The [try]/[except Exception] of [Browser.__init__] that fills
    [self.bookmarks]. *)
Definition load_bookmarks (p : path) : M filesystem pyobj :=
  try_except (json_load p) is_Exception (fun _ => ret (PyList [])).

(** [Browser.__init__]: the attributes, then the first tab.  An
    exception that leaves the constructor leaves no window. *)
Definition Browser_init (incog : bool) : M filesystem Browser :=
  let bookmarks_path :=
    os_path_join home [".pyside_browser_profile"; "bookmarks.json"] in
  os_makedirs (dirname bookmarks_path) ;;
  bookmarks <- load_bookmarks bookmarks_path ;;
  let self0 :=
    {| incognito := incog; views := []; tabs := []; view := None;
       url_bar := []; downloads := []; history := [];
       bookmarks_path := bookmarks_path; bookmarks := bookmarks |} in
  fun d =>
    match new_tab HOME_URL {| win := self0; fs := d |} with
    | (Ok _, w) => (Ok (win w), fs w)
    | (Raise e, w) => (Raise e, fs w)
    end.

(** [Browser.open_incognito]: a second window, constructed on the
    same disk. *)
Definition open_incognito : M filesystem Browser := Browser_init true.

(** ** Signals *)

(** What the toolkit and the engine deliver to a window. *)
Inductive event :=
| urlChanged (url : str)             (* a view's [urlChanged] *)
| tabCloseRequested (index : Z)      (* the close button of a tab *)
| currentChanged (index : Z)         (* the tab widget's [currentChanged] *)
| new_tab_clicked                    (* the [+] button *)
| textEdited (text : str)            (* the user types in the URL bar *)
| returnPressed                      (* Return in the URL bar *)
| home_triggered                     (* the home action *)
| add_bookmark_triggered (current : str)
| downloadRequested (dest : str).

Definition handle (e : event) : M world unit :=
  match e with
  | urlChanged u => _on_url_changed u
  | tabCloseRequested i => close_tab i
  | currentChanged i => tab_changed i
  | new_tab_clicked => new_tab HOME_URL
  | textEdited t => update (with_url_bar t)
  | returnPressed => go_to_url
  | home_triggered => browser_home
  | add_bookmark_triggered c => add_bookmark c
  | downloadRequested d => _handle_download d
  end.

(** The world after a slot has run: an exception that leaves a slot is
    reported by the toolkit and the event loop goes on. *)
Definition post (e : event) (w : world) : world := snd (handle e w).

Definition run (es : list event) (w : world) : world :=
  fold_left (fun w e => post e w) es w.

(** Events that browse: everything but adding a bookmark and saving a
    download. *)
Definition browsing (e : event) : bool :=
  match e with
  | add_bookmark_triggered _ | downloadRequested _ => false
  | _ => true
  end.

(** ** What the methods build, for the statements below *)

(** The profile of a tab, by the mode of the window. *)
Definition profile_of (incog : bool) : QWebEngineProfile :=
  setHttpUserAgent USER_AGENT
    (if incog then
       setPersistentCookiesPolicy NoPersistentCookies
         (QWebEngineProfile_new None)
     else
       let root := os_path_join home [".pyside_browser_profile"] in
       setPersistentCookiesPolicy ForcePersistentCookies
         (setPersistentStoragePath (os_path_join root ["storage"])
            (setCachePath (os_path_join root ["cache"])
               (QWebEngineProfile_new (Some "user-profile"))))).

(** The window once [new_tab] has added a view for [u]. *)
Definition with_new_tab (u : str) (b : Browser) : Browser :=
  with_view (Some (length (views b)))
    (with_tabs (tabs b ++ [length (views b)])
       (with_views
          (views b ++
           [{| page_profile :=
                 setUrlRequestInterceptor AdBlocker_init
                   (profile_of (incognito b));
               url := u |}]) b)).

End Lumen.

(* ================================================================== *)
(** * The list dialog and the slots that show it *)
(* ================================================================== *)

(** [class ListDialog]: the rows of its list widget, and the row that is
    current (none when the dialog opens). *)
Record ListDialog := {
  windowTitle : str;
  listw : list str;
  currentRow : option nat
}.

(** [ListDialog.__init__]. *)
Definition ListDialog_init (title : str) (items : list str) : ListDialog :=
  {| windowTitle := title; listw := items; currentRow := None |}.

(** The user moves to [row] (or to no row) while the dialog runs. *)
Definition setCurrentRow (row : option nat) (dlg : ListDialog) : ListDialog :=
  {| windowTitle := windowTitle dlg; listw := listw dlg; currentRow := row |}.

(** [ListDialog.selected_text]: the text of the current item, [None]
    when there is none. *)
Definition selected_text (dlg : ListDialog) : option str :=
  match currentRow dlg with
  | Some i => listw dlg !! i
  | None => None
  end.

(** What [show_history] does from the dialog on:
    [if dlg.exec() and (url := dlg.selected_text()): self.view.setUrl(...)].
    [row] and [accepted] are what the user did: the row made current, and
    whether the dialog was accepted (a double click) or dismissed. *)
Definition open_selected (title : str) (items : list str)
    (row : option nat) (accepted : bool) : M world unit :=
  let dlg := setCurrentRow row (ListDialog_init title items) in
  if accepted then
    match selected_text dlg with
    | Some (c :: u) => view_setUrl (c :: u)
    | Some [] | None => ret tt
    end
  else ret tt.

(** [Browser.show_history]: the history, most recent first. *)
Definition show_history (row : option nat) (accepted : bool) : M world unit :=
  h <- self history ;;
  open_selected (py "History") (rev h) row accepted.

(* ================================================================== *)
(** * Status bar and progress bar *)
(* ================================================================== *)

(** The status bar's message (with its timeout in milliseconds, if any)
    and the progress bar in it. *)
Record StatusBar := {
  message : option (str * option nat);
  bar_visible : bool;
  bar_value : Z
}.

(** [progress.setValue(v)]: the bar keeps its range of 0 to 100, and a
    value outside the range is ignored. *)
Definition setValue (v : Z) (sb : StatusBar) : StatusBar :=
  if ((0 <=? v) && (v <=? 100))%Z
  then {| message := message sb; bar_visible := bar_visible sb;
          bar_value := v |}
  else sb.

Definition setVisible (b : bool) (sb : StatusBar) : StatusBar :=
  {| message := message sb; bar_visible := b; bar_value := bar_value sb |}.

Definition showMessage (text : str) (timeout : option nat) (sb : StatusBar) :
    StatusBar :=
  {| message := Some (text, timeout);
     bar_visible := bar_visible sb; bar_value := bar_value sb |}.

(** [Loading] followed by the ellipsis character. *)
Definition LOADING : str := py "Loading" ++ [8230].

(** [Browser._toggle_progress]. *)
Definition _toggle_progress (start : bool) (sb : StatusBar) : StatusBar :=
  let sb := setValue 0 (setVisible start sb) in
  if start then showMessage LOADING None sb else sb.

(** [Browser.progress_value]. *)
Definition progress_value (v : Z) (sb : StatusBar) : StatusBar := setValue v sb.

(** A window together with its status bar. *)
Record shell := {
  core : world;
  status : StatusBar
}.

Definition on_core {A} (m : M world A) : M shell A :=
  fun s => let '(r, w) := m (core s) in (r, {| core := w; status := status s |}).

Definition on_status (f : StatusBar -> StatusBar) : M shell unit :=
  modify (fun s => {| core := core s; status := f (status s) |}).

(** [Browser._load_finished]. *)
Definition _load_finished (ok : bool) : M shell unit :=
  on_status (_toggle_progress false) ;;
  on_status (showMessage (if ok then py "Loaded" else py "Load failed")
                         (Some 3000%nat)) ;;
  on_core _update_nav_state.

(** [Browser.show_user_agent]:
    [self.view.page().profile().httpUserAgent()] on the status bar for
    five seconds.  A profile whose agent was never set would report the
    engine's own; no view of this program has such a profile. *)
Definition show_user_agent : M shell unit :=
  v <- on_core (self view) ;;
  match v with
  | None => raise AttributeError
  | Some id =>
      vs <- on_core (self views) ;;
      match vs !! id with
      | None => raise AttributeError
      | Some x =>
          on_status (showMessage (default [] (httpUserAgent (page_profile x)))
                                 (Some 5000%nat))
      end
  end.

(** What the engine reports while a page loads. *)
Inductive load_event :=
| loadStarted
| loadProgress (v : Z)
| loadFinished (ok : bool).

Definition on_load (e : load_event) : M shell unit :=
  match e with
  | loadStarted => on_status (_toggle_progress true)
  | loadProgress v => on_status (progress_value v)
  | loadFinished ok => _load_finished ok
  end.

Definition after_load (es : list load_event) (s : shell) : shell :=
  fold_left (fun s e => snd (on_load e s)) es s.

(* ================================================================== *)
(** * Notions the statements below use *)
(* ================================================================== *)

(** The URLs a run of events reports, and the destinations of the
    downloads it saves, in order. *)
Definition reported_urls (es : list event) : list str :=
  flat_map (fun e => match e with urlChanged u => [u] | _ => [] end) es.

Definition saved_downloads (es : list event) : list str :=
  flat_map (fun e => match e with
                     | downloadRequested (c :: d) => [c :: d]
                     | _ => []
                     end) es.

(** The names a window holds are names of views it has: no tab twice,
    every tab and [self.view] a view of the store. *)
Definition names_are_views (b : Browser) : Prop :=
  NoDup (tabs b) /\
  Forall (fun id => (id < length (views b))%nat) (tabs b) /\
  match view b with
  | Some id => (id < length (views b))%nat
  | None => True
  end.

(** An event whose bookmark, if it adds one, survives the trip through
    the bookmarks file. *)
Definition storable (e : event) : bool :=
  match e with
  | add_bookmark_triggered u => well_formed u
  | _ => true
  end.

(** The URLs a run of events asks to bookmark. *)
Definition bookmark_requests (es : list event) : list str :=
  flat_map (fun e => match e with add_bookmark_triggered u => [u] | _ => [] end)
           es.

(* ================================================================== *)
(** * A small disk and a window, for the examples *)
(* ================================================================== *)

Module Example.

Definition home : path := ["home"; "user"].
Definition root : path := os_path_join home [".pyside_browser_profile"].
Definition bookmarks_json : path := root ++ ["bookmarks.json"].

Definition a_com : str := py "https://a.com".
Definition b_org : str := py "https://b.org/".

(** The profile directory exists and [bookmarks.json] holds the one
    bookmark [https://a.com]. *)
Definition disk : filesystem :=
  {| dirs := {[ ["home"]; home; root ]};
     files := {[ bookmarks_json := Text (dumps (str_list [a_com])) ]} |}.

(** The same, with a bookmark file cut short. *)
Definition broken_disk : filesystem :=
  {| dirs := {[ ["home"]; home; root ]};
     files := {[ bookmarks_json := Text (py "[1, 2") ]} |}.

(** A persistent window with one tab on that disk, as its constructor
    leaves it. *)
Definition window : Browser :=
  {| incognito := false;
     views := [{| page_profile :=
                    setUrlRequestInterceptor AdBlocker_init
                      (profile_of home false);
                  url := HOME_URL |}];
     tabs := [0%nat];
     view := Some 0%nat;
     url_bar := [];
     downloads := [];
     history := [];
     bookmarks_path := bookmarks_json;
     bookmarks := str_list [a_com] |}.

Definition world0 : world := {| win := window; fs := disk |}.

End Example.

(* ================================================================== *)
(** * Strings: facts *)
(* ================================================================== *)

Lemma startswith_spec (s p : str) :
  startswith s p = true <-> exists b, s = p ++ b.
Proof.
  revert s; induction p as [|c p IH]; intros s; simpl.
  - destruct s; (split; [intros _; eexists; reflexivity | reflexivity]).
  - destruct s as [|d s]; simpl.
    + split; [discriminate | intros [b Hb]; discriminate].
    + rewrite andb_true_iff, N.eqb_eq, IH. split.
      * intros [-> [b ->]]. exists b. reflexivity.
      * intros [b Hb]. injection Hb as -> ->. split; [reflexivity | exists b; reflexivity].
Qed.

Lemma str_contains_spec (s sub : str) :
  str_contains s sub = true <-> exists a b, s = a ++ sub ++ b.
Proof.
  induction s as [|d s IH]; simpl.
  - rewrite orb_false_r, startswith_spec. split.
    + intros [b Hb]. exists [], b. exact Hb.
    + intros [a [b Hab]]. destruct a; [exists b; exact Hab | discriminate].
  - rewrite orb_true_iff, startswith_spec, IH. split.
    + intros [[b Hb] | [a [b Hab]]].
      * exists [], b. exact Hb.
      * exists (d :: a), b. simpl. rewrite Hab. reflexivity.
    + intros [a [b Hab]]. destruct a as [|x a]; simpl in Hab.
      * left. exists b. exact Hab.
      * right. injection Hab as _ Hab. exists a, b. exact Hab.
Qed.

(* ================================================================== *)
(** * [json]: what is written is read back *)
(* ================================================================== *)

Section JsonFacts.

Lemma unhex_hex_digit (d : N) : d < 16 -> unhex (hex_digit d) = Some d.
Proof.
  intros H. unfold unhex, hex_digit, is_digit.
  destruct (d <? 10) eqn:E.
  - apply N.ltb_lt in E.
    replace ((48 <=? 48 + d) && (48 + d <=? 57)) with true
      by (symmetry; apply andb_true_iff; split; apply N.leb_le; lia).
    f_equal. lia.
  - apply N.ltb_ge in E.
    replace ((48 <=? 87 + d) && (87 + d <=? 57)) with false
      by (symmetry; apply andb_false_iff; right; apply N.leb_gt; lia).
    replace ((97 <=? 87 + d) && (87 + d <=? 102)) with true
      by (symmetry; apply andb_true_iff; split; apply N.leb_le; lia).
    f_equal. lia.
Qed.

Lemma decode_hex4 (n : N) :
  n < 65536 ->
  decode_uXXXX (hex_digit (n / 4096 mod 16)) (hex_digit (n / 256 mod 16))
               (hex_digit (n / 16 mod 16)) (hex_digit (n mod 16)) = Some n.
Proof.
  intros H. unfold decode_uXXXX.
  rewrite !unhex_hex_digit by (apply N.mod_lt; discriminate).
  f_equal.
  pose proof (N.div_mod n 16 ltac:(discriminate)).
  pose proof (N.div_mod (n / 16) 16 ltac:(discriminate)).
  pose proof (N.div_mod (n / 16 / 16) 16 ltac:(discriminate)).
  rewrite !N.Div0.div_div in *.
  change (16 * 16) with 256 in *. change (256 * 16) with 4096 in *.
  assert (n / 4096 < 16) by (apply N.Div0.div_lt_upper_bound; lia).
  rewrite (N.mod_small (n / 4096) 16) in * by assumption.
  lia.
Qed.

(** Bits that do not overlap add up. *)
Lemma lor_high_low (q r : N) : r < 1024 -> N.lor (q * 1024) r = q * 1024 + r.
Proof.
  intros Hr.
  assert (N.land (q * 1024) r = 0) as Hland.
  { apply N.bits_inj_0. intros n. rewrite N.land_spec.
    destruct (N.lt_ge_cases n 10) as [Hn | Hn].
    - change 1024 with (2 ^ 10). rewrite N.mul_pow2_bits_low by exact Hn.
      reflexivity.
    - rewrite andb_comm.
      destruct (N.eq_dec r 0) as [-> | Hr0]; [rewrite N.bits_0; reflexivity |].
      rewrite N.bits_above_log2; [reflexivity |].
      apply N.lt_le_trans with 10; [| exact Hn].
      apply N.log2_lt_pow2; [lia | exact Hr]. }
  rewrite <- N.lxor_lor by exact Hland.
  symmetry. apply N.add_nocarry_lxor, Hland.
Qed.

(** The surrogate pair the encoder writes for a code point above the
    basic plane, in arithmetic. *)
Lemma surrogates_of (c : N) :
  65536 <= c -> c < 1114112 ->
  N.lor 55296 (N.land (N.shiftr (c - 65536) 10) 1023) =
    55296 + (c - 65536) / 1024 /\
  N.lor 56320 (N.land (c - 65536) 1023) = 56320 + (c - 65536) mod 1024.
Proof.
  intros Hlo Hhi.
  change 1023 with (N.ones 10). rewrite !N.land_ones, N.shiftr_div_pow2.
  change (2 ^ 10) with 1024.
  assert ((c - 65536) / 1024 < 1024)
    by (apply N.Div0.div_lt_upper_bound; lia).
  rewrite (N.mod_small ((c - 65536) / 1024)) by assumption.
  pose proof (N.mod_lt (c - 65536) 1024 ltac:(discriminate)).
  change 55296 with (54 * 1024). change 56320 with (55 * 1024).
  rewrite !lor_high_low by assumption. split; reflexivity.
Qed.

(** What the decoder makes of that pair. *)
Lemma surrogates_join (c : N) :
  65536 <= c -> c < 1114112 ->
  65536 + N.lor (N.shiftl (55296 + (c - 65536) / 1024 - 55296) 10)
                (56320 + (c - 65536) mod 1024 - 56320) = c.
Proof.
  intros Hlo Hhi.
  pose proof (N.mod_lt (c - 65536) 1024 ltac:(discriminate)).
  rewrite (N.add_comm 55296), N.add_sub, (N.add_comm 56320), N.add_sub.
  rewrite N.shiftl_mul_pow2. change (2 ^ 10) with 1024.
  rewrite lor_high_low by assumption.
  pose proof (N.div_mod (c - 65536) 1024 ltac:(discriminate)). lia.
Qed.

(** [scanstring] at a [\uXXXX] escape. *)
Lemma scanstring_u (h1 h2 h3 h4 : N) (s3 : str) :
  scanstring (BACKSLASH :: ord "u" :: h1 :: h2 :: h3 :: h4 :: s3) =
    match decode_uXXXX h1 h2 h3 h4 with
    | None => None
    | Some uni =>
      match s3 with
      | b :: u :: s4 =>
        if is_high_surrogate uni && (b =? BACKSLASH) && (u =? ord "u")
        then
          match s4 with
          | g1 :: g2 :: g3 :: g4 :: s5 =>
            match decode_uXXXX g1 g2 g3 g4 with
            | None => None
            | Some uni2 =>
              if is_low_surrogate uni2 then
                push (65536 + N.lor (N.shiftl (uni - 55296) 10)
                                      (uni2 - 56320))
                     (scanstring s5)
              else push uni (scanstring s3)
            end
          | _ => None
          end
        else push uni (scanstring s3)
      | _ => push uni (scanstring s3)
      end
    end.
Proof. reflexivity. Qed.

(** A [\uXXXX] escape stands for its value, unless that is a high
    surrogate and a low one is escaped next. *)
Lemma scanstring_u_escape (n : N) (tail : str) :
  n < 65536 ->
  (is_high_surrogate n = true -> low_escape_ahead tail = false) ->
  scanstring (u_escape n ++ tail) = push n (scanstring tail).
Proof.
  intros Hn Hs. unfold u_escape, hex4.
  change ((BACKSLASH :: ord "u" :: ?l) ++ tail)
    with (BACKSLASH :: ord "u" :: l ++ tail).
  cbn [app]. rewrite scanstring_u, decode_hex4 by exact Hn.
  destruct (is_high_surrogate n).
  - specialize (Hs eq_refl). unfold low_escape_ahead in Hs.
    destruct tail as [|b [|u s4]]; try reflexivity.
    cbn [andb]. destruct ((b =? BACKSLASH) && (u =? ord "u")); [| reflexivity].
    destruct s4 as [|g1 [|g2 [|g3 [|g4 s5]]]]; try discriminate.
    destruct (decode_uXXXX g1 g2 g3 g4) as [x|]; [| discriminate].
    rewrite Hs. reflexivity.
  - destruct tail as [|b [|u s4]]; reflexivity.
Qed.

(** The decoder reads back, as one code point, what the encoder wrote
    for it. *)
Lemma scanstring_escape_char (c : N) (tail : str) :
  c < 1114112 ->
  (is_high_surrogate c = true -> low_escape_ahead tail = false) ->
  scanstring (escape_char c ++ tail) = push c (scanstring tail).
Proof.
  intros Hhi Hc. unfold escape_char.
  destruct (c =? QUOTE) eqn:E1; [apply N.eqb_eq in E1; subst; reflexivity |].
  destruct (c =? BACKSLASH) eqn:E2; [apply N.eqb_eq in E2; subst; reflexivity |].
  destruct (c =? 8) eqn:E3; [apply N.eqb_eq in E3; subst; reflexivity |].
  destruct (c =? 12) eqn:E4; [apply N.eqb_eq in E4; subst; reflexivity |].
  destruct (c =? 10) eqn:E5; [apply N.eqb_eq in E5; subst; reflexivity |].
  destruct (c =? 13) eqn:E6; [apply N.eqb_eq in E6; subst; reflexivity |].
  destruct (c =? 9) eqn:E7; [apply N.eqb_eq in E7; subst; reflexivity |].
  destruct ((32 <=? c) && (c <=? 126)) eqn:E8.
  - apply andb_true_iff in E8 as [Ha Hb]. apply N.leb_le in Ha.
    simpl. rewrite E1, E2.
    replace (c <? 32) with false by (symmetry; apply N.ltb_ge; exact Ha).
    reflexivity.
  - destruct (c <? 65536) eqn:E9.
    + apply N.ltb_lt in E9. apply scanstring_u_escape; assumption.
    + apply N.ltb_ge in E9.
      cbv zeta.
      destruct (surrogates_of c E9 Hhi) as [-> ->].
      pose proof (N.mod_lt (c - 65536) 1024 ltac:(discriminate)) as Hm.
      assert ((c - 65536) / 1024 < 1024) as Hd
        by (apply N.Div0.div_lt_upper_bound; lia).
      rewrite <- (surrogates_join c E9 Hhi) at 3.
      set (q := (c - 65536) / 1024) in *.
      set (r := (c - 65536) mod 1024) in *.
      rewrite <- app_assoc. unfold u_escape at 1, hex4 at 1.
      change ((BACKSLASH :: ord "u" :: ?l) ++ ?t)
        with (BACKSLASH :: ord "u" :: l ++ t).
      cbn [app]. rewrite scanstring_u, decode_hex4 by lia.
      replace (is_high_surrogate (55296 + q)) with true
        by (symmetry; apply andb_true_iff; split; apply N.leb_le; lia).
      unfold u_escape, hex4.
      change ((BACKSLASH :: ord "u" :: ?l) ++ ?t)
        with (BACKSLASH :: ord "u" :: l ++ t).
      cbn [app].
      rewrite !N.eqb_refl. cbn [andb].
      rewrite decode_hex4 by lia.
      replace (is_low_surrogate (56320 + r)) with true
        by (symmetry; apply andb_true_iff; split; apply N.leb_le; lia).
      reflexivity.
Qed.

(** What the encoder writes for a code point that is no low surrogate
    does not start like the escape of one. *)
Lemma no_low_escape_ahead (c : N) (tail : str) :
  c < 1114112 -> is_low_surrogate c = false ->
  low_escape_ahead (escape_char c ++ tail) = false.
Proof.
  intros Hhi Hlow. unfold escape_char.
  destruct (c =? QUOTE) eqn:E1; [reflexivity |].
  destruct (c =? BACKSLASH) eqn:E2; [reflexivity |].
  destruct (c =? 8) eqn:E3; [reflexivity |].
  destruct (c =? 12) eqn:E4; [reflexivity |].
  destruct (c =? 10) eqn:E5; [reflexivity |].
  destruct (c =? 13) eqn:E6; [reflexivity |].
  destruct (c =? 9) eqn:E7; [reflexivity |].
  destruct ((32 <=? c) && (c <=? 126)) eqn:E8.
  - cbn [app]. unfold low_escape_ahead. destruct tail as [|u s4]; [reflexivity |].
    rewrite E2. reflexivity.
  - destruct (c <? 65536) eqn:E9.
    + apply N.ltb_lt in E9. unfold u_escape, hex4, low_escape_ahead.
      cbn [app]. rewrite !N.eqb_refl. cbn [andb].
      rewrite decode_hex4 by exact E9. exact Hlow.
    + apply N.ltb_ge in E9. cbv zeta.
      destruct (surrogates_of c E9 Hhi) as [-> _].
      assert ((c - 65536) / 1024 < 1024) as Hd
        by (apply N.Div0.div_lt_upper_bound; lia).
      set (q := (c - 65536) / 1024) in *.
      rewrite <- app_assoc. unfold u_escape at 1, hex4 at 1, low_escape_ahead.
      cbn [app]. rewrite !N.eqb_refl. cbn [andb].
      rewrite decode_hex4 by lia.
      apply andb_false_iff. left. apply N.leb_gt. lia.
Qed.

Lemma scanstring_encoded (s rest : str) :
  well_formed s = true ->
  scanstring (flat_map escape_char s ++ QUOTE :: rest) = Some (s, rest).
Proof.
  induction s as [|c s IH]; intros H; [reflexivity |].
  cbn [well_formed] in H. apply andb_true_iff in H as [H Hs].
  apply andb_true_iff in H as [Hc Hpair].
  apply N.ltb_lt in Hc. apply negb_true_iff in Hpair.
  cbn [flat_map]. rewrite <- app_assoc, scanstring_escape_char.
  - rewrite IH by exact Hs. reflexivity.
  - exact Hc.
  - intros Hhigh. rewrite Hhigh in Hpair. cbn [andb] in Hpair.
    destruct s as [|c2 s2]; [destruct rest; reflexivity |].
    cbn [flat_map]. rewrite <- app_assoc.
    cbn [well_formed] in Hs. apply andb_true_iff in Hs as [Hs _].
    apply andb_true_iff in Hs as [Hc2 _]. apply N.ltb_lt in Hc2.
    apply no_low_escape_ahead; assumption.
Qed.

(** Strings of scalar values are well formed. *)
Lemma scalar_text_well_formed (s : str) :
  scalar_text s = true -> well_formed s = true.
Proof.
  induction s as [|c s IH]; [reflexivity |].
  cbn [scalar_text forallb well_formed]. intros H.
  apply andb_true_iff in H as [Hc Hs]. rewrite (IH Hs), andb_true_r.
  unfold scalar in Hc. unfold is_high_surrogate.
  apply orb_true_iff in Hc as [Hc | Hc].
  - apply N.ltb_lt in Hc.
    replace (c <? 1114112) with true by (symmetry; apply N.ltb_lt; lia).
    replace (55296 <=? c) with false by (symmetry; apply N.leb_gt; lia).
    reflexivity.
  - apply andb_true_iff in Hc as [Hlo Hhi]. apply N.leb_le in Hlo.
    rewrite Hhi.
    replace (c <=? 56319) with false by (symmetry; apply N.leb_gt; lia).
    rewrite andb_false_r. reflexivity.
Qed.

Lemma scan_once_string (fuel : nat) (s rest : str) :
  well_formed s = true ->
  scan_once (S fuel) (encode_basestring_ascii s ++ rest) = Some (PyStr s, rest).
Proof.
  intros H. unfold encode_basestring_ascii.
  change ((QUOTE :: ?l) ++ rest) with (QUOTE :: l ++ rest).
  rewrite <- app_assoc. change ([QUOTE] ++ rest) with (QUOTE :: rest).
  cbn [scan_once]. change (QUOTE =? QUOTE) with true. cbv iota.
  rewrite scanstring_encoded by exact H. reflexivity.
Qed.

Lemma join_cons2 (sep x y : str) (l : list str) :
  join sep (x :: y :: l) = x ++ sep ++ join sep (y :: l).
Proof. reflexivity. Qed.

Lemma length_join_encoded (sep : str) (L : list str) :
  (length L <= length (join sep (List.map encode_basestring_ascii L)))%nat.
Proof.
  induction L as [|x [|y L] IH]; [simpl; lia | simpl; lia |].
  cbn [List.map] in *. rewrite join_cons2, !length_app.
  cbn [length] in *. unfold encode_basestring_ascii at 1. cbn [length]. lia.
Qed.

Lemma array_loop_S (fuel : nat) (s : str) (acc : list pyobj) :
  array_loop (S fuel) s acc =
    match scan_once fuel s with
    | None => None
    | Some (v, r) =>
      match skip_ws r with
      | d :: r' =>
        if d =? ord "]" then Some (PyList (acc ++ [v]), r')
        else if d =? ord "," then array_loop fuel (skip_ws r') (acc ++ [v])
        else None
      | [] => None
      end
    end.
Proof. reflexivity. Qed.

(** The array loop reads a comma-separated run of encoded strings up to
    the closing bracket. *)
Lemma array_loop_strings (L : list str) :
  forall (x : str) (acc : list pyobj) (fuel : nat) (rest : str),
    forallb well_formed (x :: L) = true ->
    (length L + 2 <= fuel)%nat ->
    array_loop fuel
      (join (py ", ") (List.map encode_basestring_ascii (x :: L)) ++
       ord "]" :: rest) acc =
    Some (PyList (acc ++ List.map PyStr (x :: L)), rest).
Proof.
  induction L as [|y L IH]; intros x acc fuel rest H Hf.
  - destruct fuel as [|[|fuel]]; [simpl in Hf; lia | simpl in Hf; lia |].
    simpl in H. apply andb_true_iff in H as [Hx _].
    cbn [List.map join]. rewrite array_loop_S.
    rewrite scan_once_string by exact Hx. reflexivity.
  - destruct fuel as [|[|fuel]]; [simpl in Hf; lia | simpl in Hf; lia |].
    cbn [forallb] in H. apply andb_true_iff in H as [Hx H].
    cbn [List.map]. rewrite join_cons2, <- !app_assoc.
    rewrite array_loop_S.
    rewrite scan_once_string by exact Hx.
    change (py ", " ++ ?t) with (ord "," :: 32 :: t).
    cbn [skip_ws]. change (is_ws (ord ",")) with false. cbv iota.
    change (ord "," =? ord "]") with false.
    change (ord "," =? ord ",") with true. cbv iota.
    cbn [skip_ws]. change (is_ws 32) with true. cbv iota.
    replace (skip_ws (join (py ", ") (encode_basestring_ascii y ::
                                     List.map encode_basestring_ascii L) ++
                      ord "]" :: rest))
      with (join (py ", ") (List.map encode_basestring_ascii (y :: L)) ++
            ord "]" :: rest).
    + rewrite IH; [| exact H | simpl in *; lia].
      rewrite <- app_assoc. reflexivity.
    + cbn [List.map]. destruct L; reflexivity.
Qed.

(** What [json.dump] writes for a list of strings, [json.load] reads
    back as that list. *)
Lemma loads_dumps_str_list (L : list str) :
  forallb well_formed L = true ->
  loads (dumps (str_list L)) = Ok (str_list L).
Proof.
  intros H. unfold str_list. cbn [dumps]. rewrite List.map_map.
  change (List.map (fun x => dumps (PyStr x)) L)
    with (List.map encode_basestring_ascii L).
  unfold loads, fuel_for.
  change (py "[" ++ ?t) with (ord "[" :: t).
  change (py "]") with [ord "]"].
  cbn [skip_ws]. change (is_ws (ord "[")) with false. cbv iota.
  rewrite length_cons, length_app.
  pose proof (length_join_encoded (py ", ") L) as Hlen.
  set (n := length (join (py ", ") (List.map encode_basestring_ascii L))) in *.
  replace (2 * S (n + length [ord "]"]) + 2)%nat
    with (S (2 * n + 5))%nat by (simpl; lia).
  cbn [scan_once].
  change (ord "[" =? QUOTE) with false.
  change (ord "[" =? ord "{") with false.
  change (ord "[" =? ord "[") with true. cbv iota.
  destruct L as [|x L].
  - reflexivity.
  - replace (skip_ws (join (py ", ") (List.map encode_basestring_ascii (x :: L)) ++
                      [ord "]"]))
      with (QUOTE :: List.tl (join (py ", ")
                                (List.map encode_basestring_ascii (x :: L)) ++
                              [ord "]"]))
      by (cbn [List.map]; destruct L; reflexivity).
    change (QUOTE =? ord "]") with false. cbv iota.
    replace (QUOTE :: List.tl (join (py ", ")
                                 (List.map encode_basestring_ascii (x :: L)) ++
                               [ord "]"]))
      with (join (py ", ") (List.map encode_basestring_ascii (x :: L)) ++
            ord "]" :: [])
      by (cbn [List.map]; destruct L; reflexivity).
    rewrite array_loop_strings; [reflexivity | exact H |].
    simpl in Hlen. lia.
Qed.

End JsonFacts.
(* ================================================================== *)
(** * [json]: the decoder never runs short of fuel *)
(* ================================================================== *)

Section JsonFuel.

Lemma length_skip_ws (s : str) : (length (skip_ws s) <= length s)%nat.
Proof.
  induction s as [|c s IH]; [reflexivity |].
  cbn [skip_ws]. destruct (is_ws c); simpl; lia.
Qed.

Lemma length_push (c : N) (x : option (str * str)) (t r : str) (n : nat) :
  push c x = Some (t, r) ->
  (forall t' r', x = Some (t', r') -> (length r' < n)%nat) ->
  (length r < n)%nat.
Proof.
  destruct x as [[t' r']|]; [| discriminate].
  simpl. intros H Hx. injection H as _ <-. eapply Hx. reflexivity.
Qed.

(** [scanstring] consumes at least the closing quote. *)
Lemma length_scanstring (s t r : str) :
  scanstring s = Some (t, r) -> (length r < length s)%nat.
Proof.
  remember (length s) as n eqn:Hn.
  assert (length s <= n)%nat as Hle by lia. clear Hn.
  revert s t r Hle. induction n as [|n IH]; intros s t r Hle H.
  - destruct s; [discriminate | simpl in Hle; lia].
  - destruct s as [|c s1]; [discriminate |]. cbn [scanstring] in H.
    cbn [length] in Hle.
    assert (forall c' s' t' r', (length s' <= n)%nat ->
                                push c' (scanstring s') = Some (t', r') ->
                                (length r' < S n)%nat) as Hpush.
    { intros c' s' t' r' Hs' Hp. eapply length_push; [exact Hp |].
      intros t'' r'' Hx. apply IH in Hx; [lia | exact Hs']. }
    destruct (c =? QUOTE); [injection H as _ <-; lia |].
    destruct (c =? BACKSLASH).
    + destruct s1 as [|e s2]; [discriminate |]. cbn [length] in Hle.
      destruct (e =? ord "u").
      * destruct s2 as [|h1 [|h2 [|h3 [|h4 s3]]]]; try discriminate.
        cbn [length] in Hle.
        destruct (decode_uXXXX h1 h2 h3 h4) as [uni|]; [| discriminate].
        destruct s3 as [|b [|u s4]];
          try (apply Hpush in H; [lia | cbn [length]; lia]).
        cbn [length] in Hle.
        destruct (is_high_surrogate uni && (b =? BACKSLASH) && (u =? ord "u"));
          [| apply Hpush in H; [lia | cbn [length]; lia]].
        destruct s4 as [|g1 [|g2 [|g3 [|g4 s5]]]]; try discriminate.
        cbn [length] in Hle.
        destruct (decode_uXXXX g1 g2 g3 g4) as [uni2|]; [| discriminate].
        destruct (is_low_surrogate uni2);
          apply Hpush in H; try lia; cbn [length]; lia.
      * destruct (unescape e) as [ch|]; [| discriminate].
        apply Hpush in H; [lia | lia].
    + destruct (c <? 32); [discriminate |].
      apply Hpush in H; [lia | lia].
Qed.

Lemma length_span_digits (s : str) :
  (length (snd (span_digits s)) <= length s)%nat.
Proof.
  induction s as [|c s IH]; [reflexivity |].
  cbn [span_digits]. destruct (is_digit c); [| reflexivity].
  destruct (span_digits s) as [ds r]. simpl in *. lia.
Qed.

(** A number consumes at least one character. *)
Lemma length_match_number (s lexeme r : str) :
  match_number s = Some (lexeme, r) -> (length r < length s)%nat.
Proof.
  unfold match_number.
  destruct (scan_int s) as [[i r1]|] eqn:Ei; [| discriminate].
  assert (length r1 < length s)%nat as H1.
  { unfold scan_int in Ei.
    destruct s as [|c s']; [discriminate |].
    assert (forall x : str,
               (length x <= length (c :: s'))%nat ->
               forall sign,
               match x with
               | d :: y =>
                   if d =? ord "0" then Some (sign ++ [d], y)
                   else if is_digit d
                        then let '(ds, r') := span_digits y in
                             Some (sign ++ d :: ds, r')
                        else None
               | [] => None
               end = Some (i, r1) ->
               (length r1 < length (c :: s'))%nat) as Hbody.
    { intros x Hx sign H. destruct x as [|d y]; [discriminate |].
      cbn [length] in Hx.
      destruct (d =? ord "0"); [injection H as _ <-; cbn [length]; lia |].
      destruct (is_digit d); [| discriminate].
      pose proof (length_span_digits y) as Hr.
      destruct (span_digits y) as [ds r']. injection H as _ <-.
      cbn [snd length] in *. lia. }
    destruct (c =? ord "-").
    - apply (Hbody s' ltac:(cbn [length]; lia) [c] Ei).
    - apply (Hbody (c :: s') ltac:(lia) [] Ei). }
  assert (forall x, (length (snd (scan_frac x)) <= length x)%nat) as Hfrac.
  { intros x. unfold scan_frac. destruct x as [|c x']; [reflexivity |].
    destruct (c =? ord "."); [| reflexivity].
    pose proof (length_span_digits x') as Hx.
    destruct (span_digits x') as [[|d ds] r']; cbn [snd length] in *; lia. }
  assert (forall x, (length (snd (scan_exp x)) <= length x)%nat) as Hexp.
  { intros x. unfold scan_exp. destruct x as [|c x']; [reflexivity |].
    destruct ((c =? ord "e") || (c =? ord "E")); [| reflexivity].
    destruct x' as [|g x''].
    - reflexivity.
    - destruct ((g =? ord "-") || (g =? ord "+")).
      + pose proof (length_span_digits x'') as Hx.
        destruct (span_digits x'') as [[|d ds] r']; cbn [snd length] in *; lia.
      + pose proof (length_span_digits (g :: x'')) as Hx.
        destruct (span_digits (g :: x'')) as [[|d ds] r'];
          cbn [snd length] in *; lia. }
  specialize (Hfrac r1). destruct (scan_frac r1) as [f r2].
  specialize (Hexp r2). destruct (scan_exp r2) as [e r3].
  intros H. injection H as _ <-. cbn [snd] in *. lia.
Qed.

(** A constant of the grammar consumes its own length. *)
Lemma length_literal (s : str) (word : string) (v x : pyobj) (r : str) :
  (0 < String.length word)%nat ->
  literal s word v = Some (x, r) -> (length r < length s)%nat.
Proof.
  unfold literal. intros Hw.
  destruct (startswith s (py word)) eqn:E; [| discriminate].
  intros H. injection H as _ <-. rewrite length_drop.
  apply startswith_spec in E as [b ->]. rewrite length_app.
  assert (length (py word) = String.length word) as ->.
  { unfold py. rewrite length_map. clear. induction word; simpl; congruence. }
  lia.
Qed.

Lemma object_loop_S (fuel : nat) (s : str) (acc : list (str * pyobj)) :
  object_loop (S fuel) s acc =
    match scanstring s with
    | None => None
    | Some (key, r) =>
      match skip_ws r with
      | d :: r1 =>
        if d =? ord ":" then
          match scan_once fuel (skip_ws r1) with
          | None => None
          | Some (v, r2) =>
            match skip_ws r2 with
            | d2 :: r3 =>
              if d2 =? ord "}" then Some (PyDict (dict_set acc key v), r3)
              else if d2 =? ord "," then
                match skip_ws r3 with
                | q :: r4 =>
                  if q =? QUOTE
                  then object_loop fuel r4 (dict_set acc key v)
                  else None
                | [] => None
                end
              else None
            | [] => None
            end
          end
        else None
      | [] => None
      end
    end.
Proof. reflexivity. Qed.

Lemma scan_once_S (fuel : nat) (c : N) (s' : str) :
  scan_once (S fuel) (c :: s') =
    if c =? QUOTE then
      match scanstring s' with
      | Some (t, r) => Some (PyStr t, r)
      | None => None
      end
    else if c =? ord "{" then
      match skip_ws s' with
      | d :: r =>
        if d =? ord "}" then Some (PyDict [], r)
        else if d =? QUOTE then object_loop fuel r []
        else None
      | [] => None
      end
    else if c =? ord "[" then
      match skip_ws s' with
      | d :: r =>
        if d =? ord "]" then Some (PyList [], r)
        else array_loop fuel (d :: r) []
      | [] => None
      end
    else scan_flat (c :: s').
Proof. reflexivity. Qed.

Lemma length_scan_flat (s : str) (x : pyobj * str) :
  scan_flat s = Some x -> (length (snd x) < length s)%nat.
Proof.
  unfold scan_flat. destruct x as [v r]. cbn [snd].
  repeat match goal with
         | |- match literal ?a ?w ?b with _ => _ end = _ -> _ =>
             destruct (literal a w b) as [[? ?]|] eqn:?;
             [ intros H; injection H as -> ->;
               eapply length_literal; [| eassumption]; simpl; lia |]
         end.
  destruct (match_number s) as [[lexeme r']|] eqn:En.
  - intros H. injection H as _ <-. eapply length_match_number, En.
  - repeat match goal with
           | |- match literal ?a ?w ?b with _ => _ end = _ -> _ =>
               destruct (literal a w b) as [[? ?]|] eqn:?;
               [ intros H; injection H as -> ->;
                 eapply length_literal; [| eassumption]; simpl; lia |]
           end.
    intros H. eapply length_literal; [| exact H]. simpl. lia.
Qed.

(** A run of the decoder that succeeds consumes input, and succeeds
    with the same result under any fuel of at least twice the length
    of its input plus two. *)
Lemma fuel_enough (f : nat) :
  (forall s x,
      scan_once f s = Some x ->
      (length (snd x) < length s)%nat /\
      forall f', (2 * length s + 1 <= f')%nat -> scan_once f' s = Some x) /\
  (forall s acc x,
      array_loop f s acc = Some x ->
      (length (snd x) < length s)%nat /\
      forall f', (2 * length s + 2 <= f')%nat -> array_loop f' s acc = Some x) /\
  (forall s acc x,
      object_loop f s acc = Some x ->
      (length (snd x) < length s)%nat /\
      forall f', (2 * length s + 2 <= f')%nat -> object_loop f' s acc = Some x).
Proof.
  induction f as [|f (IHs & IHa & IHo)].
  - repeat split; discriminate.
  - split; [| split].
    + (* scan_once *)
      intros [|c s'] x H; [discriminate |].
      rewrite scan_once_S in H. cbn [length].
      assert (forall f', (2 * S (length s') + 1 <= f')%nat ->
                         exists g, f' = S g /\ (2 * length s' + 2 <= g)%nat)
        as Hsucc.
      { intros [|g] Hg; [lia | exists g; split; [reflexivity | lia]]. }
      destruct (c =? QUOTE) eqn:E1.
      { destruct (scanstring s') as [[t r]|] eqn:Es; [| discriminate].
        injection H as <-. cbn [snd]. apply length_scanstring in Es as Hl.
        split; [lia |]. intros f' Hf'. destruct (Hsucc f' Hf') as (g & -> & _).
        rewrite scan_once_S, E1, Es. reflexivity. }
      destruct (c =? ord "{") eqn:E2.
      { pose proof (length_skip_ws s') as Hsk.
        destruct (skip_ws s') as [|d r] eqn:Esk; [discriminate |].
        cbn [length] in Hsk.
        destruct (d =? ord "}") eqn:E3.
        - injection H as <-. cbn [snd]. split; [lia |].
          intros f' Hf'. destruct (Hsucc f' Hf') as (g & -> & _).
          rewrite scan_once_S, E1, E2, Esk, E3. reflexivity.
        - destruct (d =? QUOTE) eqn:E4; [| discriminate].
          apply IHo in H as [Hl Hfuel]. split; [lia |].
          intros f' Hf'. destruct (Hsucc f' Hf') as (g & -> & Hg).
          rewrite scan_once_S, E1, E2, Esk, E3, E4. apply Hfuel. lia. }
      destruct (c =? ord "[") eqn:E3.
      { pose proof (length_skip_ws s') as Hsk.
        destruct (skip_ws s') as [|d r] eqn:Esk; [discriminate |].
        cbn [length] in Hsk.
        destruct (d =? ord "]") eqn:E4.
        - injection H as <-. cbn [snd]. split; [lia |].
          intros f' Hf'. destruct (Hsucc f' Hf') as (g & -> & _).
          rewrite scan_once_S, E1, E2, E3, Esk, E4. reflexivity.
        - apply IHa in H as [Hl Hfuel]. cbn [length] in Hl, Hfuel.
          split; [lia |].
          intros f' Hf'. destruct (Hsucc f' Hf') as (g & -> & Hg).
          rewrite scan_once_S, E1, E2, E3, Esk, E4. apply Hfuel. lia. }
      apply length_scan_flat in H as Hl. cbn [length] in Hl.
      split; [exact Hl |].
      intros f' Hf'. destruct (Hsucc f' Hf') as (g & -> & _).
      rewrite scan_once_S, E1, E2, E3. exact H.
    + (* array_loop *)
      intros s acc x H. rewrite array_loop_S in H.
      destruct (scan_once f s) as [[v r]|] eqn:Ev; [| discriminate].
      apply IHs in Ev as [Hlv Hfv]. cbn [snd] in Hlv.
      pose proof (length_skip_ws r) as Hsk.
      destruct (skip_ws r) as [|d r'] eqn:Esk; [discriminate |].
      cbn [length] in Hsk.
      destruct (d =? ord "]") eqn:E1.
      * injection H as <-. cbn [snd]. split; [lia |].
        intros [|g] Hg; [lia |].
        rewrite array_loop_S, Hfv, Esk, E1 by lia. reflexivity.
      * destruct (d =? ord ",") eqn:E2; [| discriminate].
        pose proof (length_skip_ws r') as Hsk'.
        apply IHa in H as [Hl Hfuel]. split; [lia |].
        intros [|g] Hg; [lia |].
        rewrite array_loop_S, Hfv, Esk, E1, E2 by lia. apply Hfuel. lia.
    + (* object_loop *)
      intros s acc x H. rewrite object_loop_S in H.
      destruct (scanstring s) as [[key r]|] eqn:Ek; [| discriminate].
      apply length_scanstring in Ek as Hlk.
      pose proof (length_skip_ws r) as Hsk.
      destruct (skip_ws r) as [|d r1] eqn:Esk; [discriminate |].
      cbn [length] in Hsk.
      destruct (d =? ord ":") eqn:E1; [| discriminate].
      pose proof (length_skip_ws r1) as Hsk1.
      destruct (scan_once f (skip_ws r1)) as [[v r2]|] eqn:Ev; [| discriminate].
      apply IHs in Ev as [Hlv Hfv]. cbn [snd] in Hlv.
      pose proof (length_skip_ws r2) as Hsk2.
      destruct (skip_ws r2) as [|d2 r3] eqn:Esk2; [discriminate |].
      cbn [length] in Hsk2.
      destruct (d2 =? ord "}") eqn:E2.
      * injection H as <-. cbn [snd]. split; [lia |].
        intros [|g] Hg; [lia |].
        rewrite object_loop_S, Ek, Esk, E1, Hfv, Esk2, E2 by lia. reflexivity.
      * destruct (d2 =? ord ",") eqn:E3; [| discriminate].
        pose proof (length_skip_ws r3) as Hsk3.
        destruct (skip_ws r3) as [|q r4] eqn:Esk3; [discriminate |].
        cbn [length] in Hsk3.
        destruct (q =? QUOTE) eqn:E4; [| discriminate].
        apply IHo in H as [Hl Hfuel]. split; [lia |].
        intros [|g] Hg; [lia |].
        rewrite object_loop_S, Ek, Esk, E1, Hfv, Esk2, E2, E3, Esk3, E4 by lia.
        apply Hfuel. lia.
Qed.


End JsonFuel.
(* ================================================================== *)
(** * The file system: what [os.makedirs], reading and writing do *)
(* ================================================================== *)

Section OsFacts.

Lemma dirname_child (parent : path) (c : string) :
  dirname (parent ++ [c]) = parent.
Proof. unfold dirname. apply removelast_last. Qed.

Lemma grown_refl (name : path) (d : filesystem) : grown_towards name d d.
Proof. split; [reflexivity | split; [reflexivity | auto]]. Qed.

Lemma grown_trans (n1 n2 : path) (d1 d2 d3 : filesystem) :
  n1 `prefix_of` n2 ->
  grown_towards n1 d1 d2 -> grown_towards n2 d2 d3 -> grown_towards n2 d1 d3.
Proof.
  intros Hn (Hf1 & Hm1 & Hd1) (Hf2 & Hm2 & Hd2).
  split; [congruence |]. split; [etransitivity; eassumption |].
  intros p Hp. destruct (Hd2 p Hp) as [Hp2 | Hp2]; [| auto].
  destruct (Hd1 p Hp2) as [Hp1 | Hp1]; [auto |].
  right. etransitivity; eassumption.
Qed.

(** A path that is no prefix of [name] is a directory after the call
    exactly when it was one before. *)
Lemma grown_isdir (name p : path) (d d' : filesystem) :
  grown_towards name d d' -> ~ p `prefix_of` name ->
  isdir d' p = isdir d p.
Proof.
  intros (_ & Hm & Hd) Hp. unfold isdir.
  apply bool_decide_ext. split; intros [H | H]; auto.
  - destruct (Hd p H); [auto | contradiction].
Qed.

(** [mkdir] never touches a file, and adds at most the directory asked
    for. *)
Lemma mkdir_frame (p : path) (d : filesystem) :
  grown_towards p d (snd (mkdir p d)).
Proof.
  unfold mkdir. destruct (path_exists d p); [apply grown_refl |].
  destruct (isdir d (dirname p)).
  - split; [reflexivity |]. simpl. split; [set_solver |]. intros q Hq.
    apply elem_of_union in Hq as [Hq | Hq]; [| auto].
    apply elem_of_singleton in Hq. subst q. right. reflexivity.
  - destruct (isfile d (dirname p)); apply grown_refl.
Qed.

(** [os.makedirs] never touches a file either; the directories it adds
    are the one asked for and directories above it. *)
Lemma makedirs_rev_frame (rname : list string) (d : filesystem) :
  grown_towards (rev rname) d (snd (makedirs_rev rname d)).
Proof.
  revert d. induction rname as [|c rhead IH]; intros d.
  - apply grown_refl.
  - assert (rev rhead `prefix_of` rev (c :: rhead)) as Hpre
      by (simpl; apply prefix_app_r; reflexivity).
    cbn [makedirs_rev]. unfold bind, gets.
    assert (forall x : result unit * filesystem,
               grown_towards (rev rhead) d (snd x) ->
               grown_towards (rev (c :: rhead)) d
                 (snd (let (r, d1) := x in
                       match r with
                       | Ok _ =>
                           try_except (mkdir (rev (c :: rhead))) is_OSError
                             (fun e d2 =>
                                let (r0, d3) := (Ok (isdir d2 (rev (c :: rhead))), d2) in
                                match r0 with
                                | Ok b => (if b then ret tt else raise e) d3
                                | Raise e0 => (Raise e0, d3)
                                end) d1
                       | Raise e => (Raise e, d1)
                       end))) as Hstep.
    { intros [[[]|e] d1] Hg; cbn [snd] in *.
      - unfold try_except.
        pose proof (mkdir_frame (rev (c :: rhead)) d1) as Hm.
        destruct (mkdir (rev (c :: rhead)) d1) as [[[]|e] d2]; cbn [snd] in *.
        + eapply grown_trans; eassumption.
        + assert (grown_towards (rev (c :: rhead)) d d2) as Hd2
            by (eapply grown_trans; eassumption).
          destruct (is_OSError e); [| exact Hd2].
          destruct (isdir d2 (rev (c :: rhead))); exact Hd2.
      - eapply grown_trans; [exact Hpre | exact Hg | apply grown_refl]. }
    destruct (path_exists d (rev rhead)).
    + apply (Hstep (ret tt d)). apply grown_refl.
    + apply (Hstep (try_except (makedirs_rev rhead) is_FileExistsError
                               (fun _ => ret tt) d)).
      unfold try_except. specialize (IH d).
      destruct (makedirs_rev rhead d) as [[[]|e] d1]; cbn [snd] in *;
        [exact IH |].
      destruct (is_FileExistsError e); exact IH.
Qed.

Lemma makedirs_frame (name : path) (d : filesystem) :
  grown_towards name d (snd (os_makedirs name d)).
Proof.
  unfold os_makedirs. pose proof (makedirs_rev_frame (rev name) d) as H.
  rewrite rev_involutive in H. exact H.
Qed.

(** [os.makedirs] below a directory that exists: nothing to do when the
    name is a directory already, [FileExistsError] when it is a regular
    file, one new directory otherwise. *)
Lemma makedirs_child (parent : path) (c : string) (d : filesystem) :
  isdir d parent = true ->
  os_makedirs (parent ++ [c]) d =
    if isdir d (parent ++ [c]) then (Ok tt, d)
    else if isfile d (parent ++ [c]) then (Raise FileExistsError, d)
    else (Ok tt, add_dir (parent ++ [c]) d).
Proof.
  intros Hp. unfold os_makedirs. rewrite rev_app_distr. cbn [rev app makedirs_rev].
  rewrite rev_involutive.
  unfold bind, gets, try_except, mkdir, path_exists.
  rewrite Hp. cbn [orb ret].
  rewrite dirname_child, Hp.
  destruct (isdir d (parent ++ [c])) eqn:E1; cbn [orb].
  - cbn [is_OSError]. rewrite E1. reflexivity.
  - destruct (isfile d (parent ++ [c])) eqn:E2.
    + cbn [is_OSError]. rewrite E1. reflexivity.
    + reflexivity.
Qed.

(** Reading leaves the disk as it is. *)
Lemma read_text_eq (p : path) (d : filesystem) :
  read_text p d =
    (if isdir d p then Raise IsADirectoryError
     else match files d !! p with
          | None => Raise FileNotFoundError
          | Some Locked => Raise PermissionError
          | Some Undecodable => Raise UnicodeDecodeError
          | Some (Text s) => Ok s
          end, d).
Proof.
  unfold read_text. destruct (isdir d p); [reflexivity |].
  destruct (files d !! p) as [[| |s]|]; reflexivity.
Qed.

(** Writing where [open] succeeds replaces the file and nothing else. *)
Lemma write_text_writable (p : path) (s : str) (d : filesystem) :
  writable d p = true ->
  write_text p s d = (Ok tt, put_file p s d).
Proof.
  unfold writable, write_text. intros H.
  apply andb_true_iff in H as [H H3]. apply andb_true_iff in H as [H1 H2].
  apply negb_true_iff in H1. rewrite H1, H2. simpl.
  destruct (files d !! p) as [[| |t]|]; try reflexivity. discriminate.
Qed.

(** A file just written is writable again and holds what was written. *)
Lemma written_file (p : path) (s : str) (d : filesystem) :
  writable d p = true ->
  writable (put_file p s d) p = true /\
  read_text p (put_file p s d) = (Ok s, put_file p s d).
Proof.
  intros H. unfold writable in *.
  apply andb_true_iff in H as [H H3]. apply andb_true_iff in H as [H1 H2].
  unfold isdir, put_file in *. cbn [dirs files] in *.
  split.
  - rewrite H1, H2, lookup_insert_eq. reflexivity.
  - rewrite read_text_eq. unfold isdir. cbn [dirs files].
    apply negb_true_iff in H1. rewrite H1, lookup_insert_eq. reflexivity.
Qed.

(** [isdir] and [isfile] on a disk with one more directory or one file
    rewritten. *)
Lemma isdir_add_dir (p q : path) (d : filesystem) :
  isdir (add_dir p d) q = bool_decide (q = p) || isdir d q.
Proof.
  unfold isdir, add_dir. cbn [dirs].
  destruct (decide (q = p)) as [-> | Hne].
  - rewrite (bool_decide_eq_true_2 (p = p)) by reflexivity.
    apply bool_decide_eq_true_2. right.
    apply elem_of_union. left. apply elem_of_singleton. reflexivity.
  - rewrite (bool_decide_eq_false_2 (q = p)) by exact Hne. cbn [orb].
    apply bool_decide_ext. rewrite elem_of_union, elem_of_singleton. tauto.
Qed.

Lemma isfile_add_dir (p q : path) (d : filesystem) :
  isfile (add_dir p d) q = isfile d q.
Proof. reflexivity. Qed.

Lemma isdir_put_file (p q : path) (s : str) (d : filesystem) :
  isdir (put_file p s d) q = isdir d q.
Proof. reflexivity. Qed.

Lemma isfile_put_file_ne (p q : path) (s : str) (d : filesystem) :
  q <> p -> isfile (put_file p s d) q = isfile d q.
Proof.
  intros Hne. unfold isfile, put_file. cbn [files].
  rewrite lookup_insert_ne by congruence. reflexivity.
Qed.

End OsFacts.

(* ================================================================== *)
(** * The block-list matcher *)
(* ================================================================== *)

(** C1. The hook blocks a request exactly when some rule of the block
    list occurs in the request URL as a contiguous, code-point-for-code-point
    (hence case-sensitive) substring; with no rules every URL is allowed. *)
Theorem interceptRequest_blocks_iff_substring :
  (forall (R : list str) (u : str),
      blocked (interceptRequest {| blocklist := R |} (request u)) = true <->
      exists r, In r R /\ exists a b, u = a ++ r ++ b) /\
  (forall u : str,
      blocked (interceptRequest {| blocklist := [] |} (request u)) = false).
Proof.
  split.
  - intros R u. unfold interceptRequest; simpl.
    destruct (existsb _ R) eqn:E; simpl.
    + split; [intros _ | reflexivity].
      apply existsb_exists in E as [r [Hin Hr]].
      exists r. split; [exact Hin | apply str_contains_spec; exact Hr].
    + split; [discriminate |].
      intros [r [Hin Hr]]. apply str_contains_spec in Hr.
      assert (existsb (fun p => str_contains u p) R = true) as E'
        by (apply existsb_exists; exists r; auto).
      congruence.
  - intros u. reflexivity.
Qed.

(** C2 (counterexample). Under the two rules of the scenario the URL
    with [pixelated] is allowed: [pixel.] does not occur in it. *)
Lemma pixelated_png_is_allowed :
  decision [py "doubleclick.net"; py "pixel."]
           (py "https://example.com/pixelated.png") = false.
Proof. vm_compute. reflexivity. Qed.

(** C2 (amended). Under the rules [doubleclick.net] and [pixel.] the hook
    blocks [https://ads.doubleclick.net/x] and allows both
    [https://example.com/pixelated.png] and [https://example.com/]; the
    block list the program installs decides the three URLs the same way,
    and a URL that does contain [pixel.] is blocked. *)
Theorem scenario_two_rules :
  let R := [py "doubleclick.net"; py "pixel."] in
  (decision R (py "https://ads.doubleclick.net/x") = true /\
   decision R (py "https://example.com/pixelated.png") = false /\
   decision R (py "https://example.com/") = false) /\
  (decision (blocklist AdBlocker_init) (py "https://ads.doubleclick.net/x") = true /\
   decision (blocklist AdBlocker_init) (py "https://example.com/pixelated.png") = false /\
   decision (blocklist AdBlocker_init) (py "https://example.com/") = false) /\
  decision R (py "https://example.com/pixel.png") = true.
Proof. vm_compute. repeat split; reflexivity. Qed.

(* ================================================================== *)
(** * The window: what each slot does to the attributes *)
(* ================================================================== *)

Ltac unfold_monad :=
  unfold bind, ret, raise, gets, modify, self, update, on_fs, try_except.

Ltac step_monad := unfold_monad; simpl.

Section Window.

Variable home : path.

Lemma world_eta (w : world) : {| win := win w; fs := fs w |} = w.
Proof. destruct w; reflexivity. Qed.

(** [_create_profile]: in an incognito window it touches nothing; in a
    persistent one it makes the profile directory and raises what
    [os.makedirs] raises. *)
Lemma create_profile_eq (w : world) :
  _create_profile home w =
    if incognito (win w) then (Ok (profile_of home true), w)
    else
      match os_makedirs (os_path_join home [".pyside_browser_profile"]) (fs w) with
      | (Ok _, d) => (Ok (profile_of home false), {| win := win w; fs := d |})
      | (Raise e, d) => (Raise e, {| win := win w; fs := d |})
      end.
Proof.
  unfold _create_profile. step_monad.
  destruct (incognito (win w)); simpl.
  - reflexivity.
  - destruct (os_makedirs _ (fs w)) as [[[]|e] d]; reflexivity.
Qed.

(** [new_tab] either raises before it touches the window, or appends one
    view and one tab and makes that view current. *)
Lemma new_tab_eq (u : str) (w : world) :
  new_tab home u w =
    match _create_profile home w with
    | (Ok _, w1) => (Ok tt, {| win := with_new_tab home u (win w); fs := fs w1 |})
    | (Raise e, w1) => (Raise e, {| win := win w; fs := fs w1 |})
    end.
Proof.
  unfold new_tab, bind. rewrite create_profile_eq.
  destruct (incognito (win w)) eqn:E; simpl.
  - unfold update, modify, with_new_tab. simpl. rewrite E. reflexivity.
  - destruct (os_makedirs _ (fs w)) as [[[]|e] d]; simpl; [| reflexivity].
    unfold update, modify, with_new_tab. simpl. rewrite E. reflexivity.
Qed.

Lemma new_tab_win (u : str) (w : world) :
  win (snd (new_tab home u w)) = win w \/
  win (snd (new_tab home u w)) = with_new_tab home u (win w).
Proof.
  rewrite new_tab_eq.
  destruct (_create_profile home w) as [[p|e] w1]; simpl; auto.
Qed.

(** Case analysis on the slot an event runs, down to the branch the
    slot takes in the world [w]. *)
Ltac slot_cases e w :=
  unfold post; destruct e; cbn [handle];
  unfold _on_url_changed, close_tab, tab_changed, _update_nav_state,
    go_to_url, browser_home, view_setUrl, add_bookmark, _handle_download,
    py_contains, py_append;
  try rewrite new_tab_eq, create_profile_eq;
  step_monad;
  repeat match goal with
         | |- context [match ?x with _ => _ end] =>
             lazymatch x with
             | context [match _ with _ => _ end] => fail
             | _ => destruct x eqn:?; simpl
             end
         end.

(** The history after one event. *)
Lemma post_history (e : event) (w : world) :
  history (win (post home e w)) =
    match e with
    | urlChanged u =>
        if incognito (win w) then history (win w)
        else if bool_decide (u ∈ history (win w)) then history (win w)
        else history (win w) ++ [u]
    | _ => history (win w)
    end.
Proof. slot_cases e w; reflexivity. Qed.

Lemma post_incognito (e : event) (w : world) :
  incognito (win (post home e w)) = incognito (win w).
Proof. slot_cases e w; congruence. Qed.

(** The disk after one event: only a new tab of a persistent window and
    a bookmark reach it. *)
Lemma post_fs (e : event) (w : world) :
  fs (post home e w) =
    match e with
    | new_tab_clicked =>
        if incognito (win w) then fs w
        else snd (os_makedirs
                    (os_path_join home [".pyside_browser_profile"]) (fs w))
    | add_bookmark_triggered c => fs (snd (add_bookmark c w))
    | _ => fs w
    end.
Proof. slot_cases e w; reflexivity. Qed.

(** The profiles of the views after one event. *)
Lemma post_profiles (e : event) (w : world) :
  List.map page_profile (views (win (post home e w))) =
    List.map page_profile (views (win w)) \/
  List.map page_profile (views (win (post home e w))) =
    List.map page_profile (views (win w)) ++
    [setUrlRequestInterceptor AdBlocker_init
       (profile_of home (incognito (win w)))].
Proof.
  assert (forall u id (l : list QWebEngineView),
             List.map page_profile
               (alter (fun x => {| page_profile := page_profile x; url := u |})
                      id l) =
             List.map page_profile l) as Halter.
  { intros u id l. revert id. induction l as [|x l IH]; intros [|id];
      simpl; try reflexivity. f_equal. apply IH. }
  slot_cases e w; rewrite ?Halter; auto;
    right; rewrite List.map_app; simpl; congruence.
Qed.

Lemma run_cons (e : event) (es : list event) (w : world) :
  run home (e :: es) w = run home es (post home e w).
Proof. reflexivity. Qed.

Lemma run_incognito (es : list event) (w : world) :
  incognito (win (run home es w)) = incognito (win w).
Proof.
  revert w; induction es as [|e es IH]; intros w; [reflexivity |].
  rewrite run_cons, IH. apply post_incognito.
Qed.

Lemma post_history_NoDup (e : event) (w : world) :
  NoDup (history (win w)) -> NoDup (history (win (post home e w))).
Proof.
  intros H. rewrite post_history. destruct e; try exact H.
  destruct (incognito (win w)); [exact H |].
  case_bool_decide as Hin; [exact H |].
  apply NoDup_app. split; [exact H |]. split.
  - intros x Hx Hx'. apply list_elem_of_singleton in Hx'. subst x. contradiction.
  - apply NoDup_singleton.
Qed.

Lemma run_history_NoDup (es : list event) (w : world) :
  NoDup (history (win w)) -> NoDup (history (win (run home es w))).
Proof.
  revert w; induction es as [|e es IH]; intros w H; [exact H |].
  rewrite run_cons. apply IH, post_history_NoDup, H.
Qed.

Lemma run_history_incognito (es : list event) (w : world) :
  incognito (win w) = true ->
  history (win (run home es w)) = history (win w).
Proof.
  revert w; induction es as [|e es IH]; intros w H; [reflexivity |].
  rewrite run_cons, IH by (rewrite post_incognito; exact H).
  rewrite post_history, H. destruct e; reflexivity.
Qed.

(** A window leaves its constructor with one tab, its view current, and
    nothing in its history or its download list. *)
Lemma Browser_init_fresh (incog : bool) (d d' : filesystem) (b : Browser) :
  Browser_init home incog d = (Ok b, d') ->
  incognito b = incog /\ history b = [] /\ downloads b = [] /\
  tabs b = [0%nat] /\ view b = Some 0%nat /\
  views b = [{| page_profile :=
                  setUrlRequestInterceptor AdBlocker_init (profile_of home incog);
                url := HOME_URL |}] /\
  bookmarks_path b =
    os_path_join home [".pyside_browser_profile"; "bookmarks.json"].
Proof.
  unfold Browser_init, bind.
  destruct (os_makedirs _ d) as [[[]|e] d1]; [| discriminate].
  destruct (load_bookmarks _ d1) as [[bm|e] d2]; [| discriminate].
  rewrite new_tab_eq.
  destruct (_create_profile home _) as [[p|e] w1]; [| discriminate].
  simpl. intros H. injection H as <- <-. simpl. repeat split; reflexivity.
Qed.


(** C3. Whatever events a window receives, its history never holds an
    entry twice: one [urlChanged] appends the URL only when the window is
    not incognito and the URL is not yet there, and nothing else touches
    the history.  In an incognito window the history is the same list
    after any events, and a window fresh from its constructor keeps a
    duplicate-free history for ever. *)
Theorem history_append_is_deduplicated (es : list event) (w : world) :
  (forall u,
      history (win (post home (urlChanged u) w)) =
        if incognito (win w) then history (win w)
        else if bool_decide (u ∈ history (win w)) then history (win w)
        else history (win w) ++ [u]) /\
  (NoDup (history (win w)) -> NoDup (history (win (run home es w)))) /\
  (incognito (win w) = true ->
   history (win (run home es w)) = history (win w)) /\
  (forall incog d b d',
      Browser_init home incog d = (Ok b, d') ->
      NoDup (history (win (run home es {| win := b; fs := d' |})))).
Proof.
  split; [| split; [| split]].
  - intros u. apply (post_history (urlChanged u)).
  - apply run_history_NoDup.
  - apply run_history_incognito.
  - intros incog d b d' H. apply run_history_NoDup. simpl.
    apply Browser_init_fresh in H as (_ & -> & _). apply NoDup_nil_2.
Qed.

(** ** Tabs *)

Lemma length_removeTab (i : Z) (l : list nat) :
  (length l - 1 <= length (removeTab i l))%nat.
Proof.
  unfold removeTab. destruct (0 <=? i)%Z; [| lia].
  rewrite delete_take_drop, length_app, length_take, length_drop. lia.
Qed.

Lemma post_tabs (e : event) (w : world) :
  tabs (win (post home e w)) =
    match e with
    | tabCloseRequested i =>
        if (1 <? length (tabs (win w)))%nat
        then removeTab i (tabs (win w)) else tabs (win w)
    | new_tab_clicked =>
        match new_tab home HOME_URL w with
        | (Ok _, _) => tabs (win w) ++ [length (views (win w))]
        | (Raise _, _) => tabs (win w)
        end
    | _ => tabs (win w)
    end.
Proof. slot_cases e w; reflexivity. Qed.

Lemma post_tabs_nonempty (e : event) (w : world) :
  (1 <= length (tabs (win w)))%nat ->
  (1 <= length (tabs (win (post home e w))))%nat.
Proof.
  intros H. rewrite post_tabs. destruct e; try exact H.
  - destruct (1 <? length (tabs (win w)))%nat eqn:E; [| exact H].
    apply Nat.ltb_lt in E.
    pose proof (length_removeTab index (tabs (win w))). lia.
  - destruct (new_tab home HOME_URL w) as [[[]|] ?]; [| exact H].
    rewrite length_app. simpl. lia.
Qed.

(** C7. Whatever events a window receives, it keeps at least one tab once
    it has one, and it has exactly one when it leaves its constructor;
    closing a tab while exactly one is left changes nothing at all, so
    the tabs and their number stay as they were. *)
Theorem tab_count_stays_positive (es : list event) (w : world) :
  ((1 <= length (tabs (win w)))%nat ->
   (1 <= length (tabs (win (run home es w))))%nat) /\
  (forall incog d b d',
      Browser_init home incog d = (Ok b, d') ->
      length (tabs b) = 1%nat /\
      (1 <= length (tabs (win (run home es {| win := b; fs := d' |}))))%nat) /\
  (forall i,
      length (tabs (win w)) = 1%nat ->
      handle home (tabCloseRequested i) w = (Ok tt, w)).
Proof.
  assert (forall es w, (1 <= length (tabs (win w)))%nat ->
                       (1 <= length (tabs (win (run home es w))))%nat) as Hrun.
  { clear. intros es. induction es as [|e es IH]; intros w H; [exact H |].
    rewrite run_cons. apply IH, post_tabs_nonempty, H. }
  split; [| split].
  - apply Hrun.
  - intros incog d b d' H. apply Browser_init_fresh in H as (_ & _ & _ & Ht & _).
    split; [rewrite Ht; reflexivity |]. apply Hrun. simpl. rewrite Ht. simpl. lia.
  - intros i H. simpl. unfold close_tab, update, modify. rewrite H. simpl.
    rewrite world_eta. reflexivity.
Qed.

(* ================================================================== *)
(** * The bookmark store *)
(* ================================================================== *)

(** The profile directory and the bookmark file. *)
Lemma bookmarks_path_eq :
  os_path_join home [".pyside_browser_profile"; "bookmarks.json"] =
  os_path_join home [".pyside_browser_profile"] ++ ["bookmarks.json"].
Proof. unfold os_path_join. rewrite <- app_assoc. reflexivity. Qed.

Lemma bookmarks_dirname :
  dirname (os_path_join home [".pyside_browser_profile"; "bookmarks.json"]) =
  os_path_join home [".pyside_browser_profile"].
Proof. rewrite bookmarks_path_eq. apply dirname_child. Qed.

Lemma bookmarks_path_not_above_root :
  ~ os_path_join home [".pyside_browser_profile"; "bookmarks.json"]
      `prefix_of` os_path_join home [".pyside_browser_profile"].
Proof.
  intros H. apply prefix_length in H. unfold os_path_join in H.
  rewrite !length_app in H. simpl in H. lia.
Qed.

(** What the [try]/[except] of the constructor leaves in
    [self.bookmarks]: always a value, and the disk as it was. *)
Lemma load_bookmarks_eq (p : path) (d : filesystem) :
  load_bookmarks p d =
    (Ok (if isdir d p then PyList []
         else match files d !! p with
              | Some (Text s) =>
                  match loads s with
                  | Ok v => v
                  | Raise _ => PyList []
                  end
              | _ => PyList []
              end), d).
Proof.
  unfold load_bookmarks, json_load, try_except, bind.
  rewrite read_text_eq.
  destruct (isdir d p); [reflexivity |].
  destruct (files d !! p) as [[| |s]|]; try reflexivity.
  destruct (loads s); reflexivity.
Qed.

(** Disks that agree on the files and on whether [p] is a directory
    load the same bookmarks. *)
Lemma load_bookmarks_ext (p : path) (d d' : filesystem) :
  files d' = files d -> isdir d' p = isdir d p ->
  fst (load_bookmarks p d') = fst (load_bookmarks p d).
Proof. intros Hf Hd. rewrite !load_bookmarks_eq. simpl. rewrite Hf, Hd. reflexivity. Qed.

(** The constructor stores what [load_bookmarks] yields on the disk it
    was started on. *)
Lemma Browser_init_bookmarks (incog : bool) (d d' : filesystem) (b : Browser) :
  Browser_init home incog d = (Ok b, d') ->
  Ok (bookmarks b) =
    fst (load_bookmarks
           (os_path_join home [".pyside_browser_profile"; "bookmarks.json"]) d).
Proof.
  unfold Browser_init, bind. rewrite bookmarks_dirname.
  pose proof (makedirs_frame (os_path_join home [".pyside_browser_profile"]) d)
    as Hg.
  destruct (os_makedirs _ d) as [[[]|e] d1]; [| discriminate]. cbn [snd] in Hg.
  rewrite <- (load_bookmarks_ext _ d d1);
    [| apply Hg | eapply grown_isdir; [exact Hg | apply bookmarks_path_not_above_root]].
  rewrite load_bookmarks_eq. cbn [fst].
  rewrite new_tab_eq.
  destruct (_create_profile home _) as [[p|e] w1]; [| discriminate].
  intros H. injection H as <- _. reflexivity.
Qed.

(** C5. Loading the bookmarks never raises and leaves the disk as it
    was: when the file is absent, is a directory, cannot be read or
    decoded, or holds text that is not JSON, the result is the empty
    list; when it holds JSON the result is the value parsed; and only
    such a parse yields anything but the empty list.  The constructor of
    a window stores that result. *)
Theorem load_bookmarks_never_raises (p : path) (d : filesystem) :
  exists v,
    load_bookmarks p d = (Ok v, d) /\
    (files d !! p = None -> v = PyList []) /\
    (isdir d p = true -> v = PyList []) /\
    (files d !! p = Some Locked -> v = PyList []) /\
    (files d !! p = Some Undecodable -> v = PyList []) /\
    (forall s, files d !! p = Some (Text s) -> isdir d p = false ->
       (forall e, loads s = Raise e -> v = PyList []) /\
       (forall x, loads s = Ok x -> v = x)) /\
    (v <> PyList [] ->
     exists s, files d !! p = Some (Text s) /\ loads s = Ok v) /\
    (forall incog b d',
       p = os_path_join home [".pyside_browser_profile"; "bookmarks.json"] ->
       Browser_init home incog d = (Ok b, d') -> bookmarks b = v).
Proof.
  eexists. split; [apply load_bookmarks_eq |].
  repeat split.
  - intros H. rewrite H. destruct (isdir d p); reflexivity.
  - intros H. rewrite H. reflexivity.
  - intros H. rewrite H. destruct (isdir d p); reflexivity.
  - intros H. rewrite H. destruct (isdir d p); reflexivity.
  - intros e He. rewrite H, H0, He. reflexivity.
  - intros x Hx. rewrite H, H0, Hx. reflexivity.
  - intros H. destruct (isdir d p); [contradiction |].
    destruct (files d !! p) as [[| |s]|]; try contradiction.
    exists s. split; [reflexivity |].
    destruct (loads s); [reflexivity | contradiction].
  - intros incog b d' -> H. apply Browser_init_bookmarks in H.
    rewrite load_bookmarks_eq in H. simpl in H. injection H as H. exact H.
Qed.

(** ** [add_bookmark] *)

(** [u in bookmarks] on a list of strings is membership. *)
Lemma contains_str_list (B : list str) (u : str) :
  existsb (fun e => eq_str e u) (List.map PyStr B) = bool_decide (u ∈ B).
Proof.
  induction B as [|x B IH]; cbn [existsb List.map eq_str].
  - symmetry. apply bool_decide_eq_false_2, not_elem_of_nil.
  - rewrite IH. destruct (decide (x = u)) as [-> | Hne].
    + rewrite (bool_decide_eq_true_2 (u = u)) by reflexivity.
      rewrite (bool_decide_eq_true_2 (u ∈ u :: B)) by apply list_elem_of_here.
      reflexivity.
    + rewrite (bool_decide_eq_false_2 (x = u)) by exact Hne. simpl.
      apply bool_decide_ext. rewrite elem_of_cons. split; [auto |].
      intros [-> | H]; [contradiction | exact H].
Qed.

Lemma str_list_app (B : list str) (u : str) :
  PyList (List.map PyStr B ++ [PyStr u]) = str_list (B ++ [u]).
Proof. unfold str_list. rewrite List.map_app. reflexivity. Qed.

(** [add_bookmark] on a window whose bookmarks are the strings [B]. *)
Lemma add_bookmark_eq (B : list str) (u : str) (w : world) :
  bookmarks (win w) = str_list B ->
  add_bookmark u w =
    if bool_decide (u = [] \/ u ∈ B) then (Ok tt, w)
    else
      let b := with_bookmarks (str_list (B ++ [u])) (win w) in
      match write_text (bookmarks_path (win w))
                       (dumps (str_list (B ++ [u]))) (fs w) with
      | (r, d) => (r, {| win := b; fs := d |})
      end.
Proof.
  intros HB. unfold add_bookmark. destruct u as [|c u].
  - rewrite bool_decide_eq_true_2 by auto. reflexivity.
  - unfold bind, self, gets. cbn [fst snd]. rewrite HB.
    unfold str_list at 1, py_contains, ret. rewrite contains_str_list.
    destruct (decide (c :: u ∈ B)) as [Hin | Hin].
    + rewrite !bool_decide_eq_true_2 by auto. reflexivity.
    + rewrite (bool_decide_eq_false_2 (c :: u ∈ B)) by exact Hin.
      rewrite bool_decide_eq_false_2 by (intros [? | ?]; [discriminate | contradiction]).
      unfold str_list at 1, py_append, ret, update, modify, on_fs.
      cbn [win fs bookmarks bookmarks_path with_bookmarks].
      rewrite str_list_app.
      destruct (write_text _ _ (fs w)) as [r d]. reflexivity.
Qed.

(** C4. On a window whose bookmarks are the strings [B]: when [u] is
    empty or among [B], [add_bookmark] changes neither the window nor the
    disk; otherwise, where the bookmark file can be opened for writing,
    it appends [u] to the list in memory and replaces the file by the
    JSON text of the whole new list.  A second call with the same [u]
    changes nothing more, and when [u] is not empty and occurs in [B] at
    most once, the list holds it exactly once after the two calls. *)
Theorem add_bookmark_appends_once (B : list str) (u : str) (w : world) :
  bookmarks (win w) = str_list B ->
  (u = [] \/ u ∈ B -> add_bookmark u w = (Ok tt, w)) /\
  (u <> [] -> u ∉ B ->
   writable (fs w) (bookmarks_path (win w)) = true ->
   add_bookmark u w =
     (Ok tt,
      {| win := with_bookmarks (str_list (B ++ [u])) (win w);
         fs := put_file (bookmarks_path (win w))
                        (dumps (str_list (B ++ [u]))) (fs w) |})) /\
  post home (add_bookmark_triggered u)
       (post home (add_bookmark_triggered u) w) =
    post home (add_bookmark_triggered u) w /\
  (u <> [] -> (count_occ str_eq_dec B u <= 1)%nat ->
   exists B',
     bookmarks (win (post home (add_bookmark_triggered u)
                       (post home (add_bookmark_triggered u) w))) =
       str_list B' /\
     count_occ str_eq_dec B' u = 1%nat).
Proof.
  intros HB.
  assert (forall w', bookmarks (win w') = str_list B ->
                     (u = [] \/ u ∈ B) ->
                     post home (add_bookmark_triggered u) w' = w') as Hnoop.
  { intros w' HB' H. unfold post. cbn [handle].
    rewrite (add_bookmark_eq B u w' HB'), bool_decide_eq_true_2 by exact H.
    reflexivity. }
  assert (~ (u = [] \/ u ∈ B) ->
          bookmarks (win (post home (add_bookmark_triggered u) w)) =
            str_list (B ++ [u]) /\
          post home (add_bookmark_triggered u)
               (post home (add_bookmark_triggered u) w) =
            post home (add_bookmark_triggered u) w) as Hfresh.
  { intros H.
    assert (post home (add_bookmark_triggered u) w =
            {| win := with_bookmarks (str_list (B ++ [u])) (win w);
               fs := snd (write_text (bookmarks_path (win w))
                                     (dumps (str_list (B ++ [u]))) (fs w)) |})
      as Hp.
    { unfold post. cbn [handle].
      rewrite (add_bookmark_eq B u w HB), bool_decide_eq_false_2 by exact H.
      cbv zeta. destruct (write_text _ _ (fs w)) as [r d]. reflexivity. }
    rewrite Hp. split; [reflexivity |].
    unfold post. cbn [handle].
    rewrite (add_bookmark_eq (B ++ [u]) u) by reflexivity.
    rewrite bool_decide_eq_true_2; [reflexivity |].
    right. apply elem_of_app. right. apply list_elem_of_here. }
  split; [| split; [| split]].
  - intros H. rewrite (add_bookmark_eq B u w HB), bool_decide_eq_true_2 by exact H.
    reflexivity.
  - intros Hu Hin Hw.
    rewrite (add_bookmark_eq B u w HB), bool_decide_eq_false_2
      by (intros [? | ?]; contradiction).
    cbv zeta. rewrite write_text_writable by exact Hw. reflexivity.
  - destruct (decide (u = [] \/ u ∈ B)) as [H | H].
    + rewrite !(Hnoop w HB H). reflexivity.
    + apply Hfresh, H.
  - intros Hu Hc. destruct (decide (u ∈ B)) as [Hin | Hin].
    + rewrite !(Hnoop w HB) by auto. exists B. split; [exact HB |].
      apply list_elem_of_In in Hin.
      apply (count_occ_In str_eq_dec) in Hin. lia.
    + destruct Hfresh as [Hb Hp]; [intros [? | ?]; contradiction |].
      rewrite Hp, Hb. exists (B ++ [u]). split; [reflexivity |].
      rewrite count_occ_app. simpl.
      destruct (str_eq_dec u u) as [_ | Hne]; [| contradiction].
      rewrite (proj1 (count_occ_not_In str_eq_dec B u)); [reflexivity |].
      intros HIn. apply Hin, list_elem_of_In, HIn.
Qed.

(** ** Saving and loading *)

(** Loading the file that [json.dump] has just written for a list of
    strings gives that list. *)
Lemma load_written (p : path) (L : list str) (d : filesystem) :
  writable d p = true ->
  forallb well_formed L = true ->
  load_bookmarks p (put_file p (dumps (str_list L)) d) =
    (Ok (str_list L), put_file p (dumps (str_list L)) d).
Proof.
  intros Hw HL. rewrite load_bookmarks_eq.
  unfold writable in Hw.
  apply andb_true_iff in Hw as [Hw _]. apply andb_true_iff in Hw as [Hw _].
  apply negb_true_iff in Hw.
  unfold isdir, put_file in *. cbn [dirs files]. rewrite Hw.
  rewrite lookup_insert_eq, loads_dumps_str_list by exact HL. reflexivity.
Qed.

Lemma forallb_well_formed_app (B : list str) (u : str) :
  forallb well_formed (u :: B) = true ->
  forallb well_formed (B ++ [u]) = true.
Proof.
  cbn [forallb]. intros H. apply andb_true_iff in H as [Hu HB].
  rewrite forallb_app, HB. cbn [forallb]. rewrite Hu. reflexivity.
Qed.

(** C6. Take a window whose bookmarks are the list [B] that loading its
    bookmark file yields, a disk where that file can be written, and
    [B] and [u] well formed (code points below [0x110000], no high
    surrogate directly followed by a low one).  After [add_bookmark u]
    the list in memory is [B] or [B] followed by [u], in that order, and
    loading the file again yields exactly that list; saving that list
    once more and loading it yields it too. *)
Theorem bookmarks_survive_save_and_load (B : list str) (u : str) (w : world) :
  fst (load_bookmarks (bookmarks_path (win w)) (fs w)) = Ok (str_list B) ->
  bookmarks (win w) = str_list B ->
  forallb well_formed (u :: B) = true ->
  writable (fs w) (bookmarks_path (win w)) = true ->
  exists L,
    (L = B \/ L = B ++ [u]) /\
    handle home (add_bookmark_triggered u) w =
      (Ok tt, post home (add_bookmark_triggered u) w) /\
    bookmarks (win (post home (add_bookmark_triggered u) w)) = str_list L /\
    fst (load_bookmarks (bookmarks_path (win w))
           (fs (post home (add_bookmark_triggered u) w))) = Ok (str_list L) /\
    fst (load_bookmarks (bookmarks_path (win w))
           (snd (write_text (bookmarks_path (win w)) (dumps (str_list L))
                            (fs (post home (add_bookmark_triggered u) w))))) =
      Ok (str_list L).
Proof.
  intros Hload HB Hs Hw.
  pose proof (forallb_well_formed_app B u Hs) as Hs'.
  assert (forallb well_formed B = true) as HsB
    by (cbn [forallb] in Hs; apply andb_true_iff in Hs as [_ Hs]; exact Hs).
  unfold post. cbn [handle]. rewrite (add_bookmark_eq B u w HB).
  case_bool_decide as Hcase.
  - exists B. cbn [snd]. repeat split; auto.
    rewrite write_text_writable by exact Hw. cbn [snd].
    rewrite load_written by assumption. reflexivity.
  - exists (B ++ [u]). cbv zeta.
    rewrite write_text_writable by exact Hw. cbn [snd fst win fs bookmarks with_bookmarks].
    repeat split; auto.
    + rewrite load_written by assumption. reflexivity.
    + destruct (written_file (bookmarks_path (win w))
                  (dumps (str_list (B ++ [u]))) (fs w) Hw) as [Hw' _].
      rewrite write_text_writable by exact Hw'. cbn [snd].
      rewrite load_written by assumption. reflexivity.
Qed.

(** ** Starting a window *)

Lemma root_is_not_bookmarks_path :
  os_path_join home [".pyside_browser_profile"] <>
  os_path_join home [".pyside_browser_profile"; "bookmarks.json"].
Proof.
  intros H. apply (f_equal length) in H. unfold os_path_join in H.
  rewrite !length_app in H. simpl in H. lia.
Qed.

(** Where the home directory exists and no regular file stands in the
    place of the profile directory, the constructor returns a window,
    having made the profile directory when it was missing. *)
Lemma Browser_init_ok (incog : bool) (d : filesystem) :
  isdir d home = true ->
  isfile d (os_path_join home [".pyside_browser_profile"]) = false ->
  exists b,
    Browser_init home incog d =
      (Ok b,
       if isdir d (os_path_join home [".pyside_browser_profile"]) then d
       else add_dir (os_path_join home [".pyside_browser_profile"]) d).
Proof.
  intros Hhome Hfile. unfold Browser_init, bind. rewrite bookmarks_dirname.
  unfold os_path_join at 1. rewrite makedirs_child by exact Hhome.
  fold (os_path_join home [".pyside_browser_profile"]). rewrite Hfile.
  set (root := os_path_join home [".pyside_browser_profile"]).
  set (d1 := if isdir d root then d else add_dir root d).
  assert (isdir d1 home = true /\ isdir d1 root = true) as [Hhome1 Hroot1].
  { subst d1. destruct (isdir d root) eqn:E; [auto |].
    rewrite !isdir_add_dir, Hhome, orb_true_r.
    rewrite (bool_decide_eq_true_2 (root = root)) by reflexivity. auto. }
  replace (if isdir d root then (Ok tt, d) else (Ok tt, add_dir root d))
    with (@Ok unit tt, d1) by (subst d1; destruct (isdir d root); reflexivity).
  rewrite load_bookmarks_eq, new_tab_eq, create_profile_eq.
  cbn [win fs incognito]. destruct incog.
  - eexists. reflexivity.
  - fold root. unfold root at 1, os_path_join at 1.
    rewrite makedirs_child by exact Hhome1.
    fold (os_path_join home [".pyside_browser_profile"]). fold root.
    rewrite Hroot1. eexists. reflexivity.
Qed.

(** C10. The bookmark store does not look at the incognito flag.  On a
    disk where the home directory exists, the profile directory is not
    a regular file, and the bookmark file is neither a directory nor
    locked and loads as the strings [B]: a window of either mode starts
    with the bookmarks [B] read from [bookmarks.json] under the profile
    directory; adding a non-empty [u] that is not in [B] appends it and
    writes the whole list to that same file; and any window started
    afterwards, of either mode, finds [B] followed by [u].  ([B] and
    [u] are well formed: code points below [0x110000], no high surrogate
    directly followed by a low one.) *)
Theorem bookmarks_ignore_incognito (incog : bool) (d : filesystem)
    (B : list str) (u : str) :
  let root := os_path_join home [".pyside_browser_profile"] in
  let bpath := root ++ ["bookmarks.json"] in
  isdir d home = true ->
  isfile d root = false ->
  isdir d bpath = false ->
  files d !! bpath <> Some Locked ->
  fst (load_bookmarks bpath d) = Ok (str_list B) ->
  forallb well_formed (u :: B) = true ->
  u <> [] -> u ∉ B ->
  exists b d1,
    Browser_init home incog d = (Ok b, d1) /\
    incognito b = incog /\
    bookmarks_path b = bpath /\
    bookmarks b = str_list B /\
    add_bookmark u {| win := b; fs := d1 |} =
      (Ok tt,
       {| win := with_bookmarks (str_list (B ++ [u])) b;
          fs := put_file bpath (dumps (str_list (B ++ [u]))) d1 |}) /\
    forall incog',
    exists b' d2,
      Browser_init home incog'
        (put_file bpath (dumps (str_list (B ++ [u]))) d1) = (Ok b', d2) /\
      incognito b' = incog' /\
      bookmarks_path b' = bpath /\
      bookmarks b' = str_list (B ++ [u]).
Proof.
  intros root bpath Hhome Hroot Hbdir Hlock Hload Hs Hu Hin.
  assert (bpath = os_path_join home [".pyside_browser_profile"; "bookmarks.json"])
    as Hbp by (subst bpath root; symmetry; apply bookmarks_path_eq).
  assert (root <> bpath) as Hne
    by (rewrite Hbp; apply root_is_not_bookmarks_path).
  destruct (Browser_init_ok incog d Hhome Hroot) as [b Hb]. fold root in Hb.
  set (d1 := if isdir d root then d else add_dir root d) in *.
  assert (isdir d1 home = true /\ isdir d1 root = true /\
          isdir d1 bpath = false /\ files d1 = files d) as (Hh1 & Hr1 & Hb1 & Hf1).
  { subst d1. destruct (isdir d root) eqn:E; [auto |].
    rewrite !isdir_add_dir, Hhome, Hbdir, orb_true_r.
    rewrite (bool_decide_eq_true_2 (root = root)) by reflexivity.
    rewrite (bool_decide_eq_false_2 (bpath = root)) by congruence. auto. }
  assert (writable d1 bpath = true) as Hw.
  { unfold writable. replace (dirname bpath) with root
      by (symmetry; apply dirname_child).
    rewrite Hb1, Hr1, Hf1. cbn [negb andb].
    destruct (files d !! bpath) as [[| |t]|]; try reflexivity. contradiction. }
  pose proof (Browser_init_fresh incog d d1 b Hb)
    as (Hincog & _ & _ & _ & _ & _ & Hpath).
  pose proof (Browser_init_bookmarks incog d d1 b Hb) as Hbm.
  rewrite <- Hbp, Hload in Hbm. injection Hbm as Hbm. rewrite <- Hbp in Hpath.
  exists b, d1. repeat split; try assumption.
  - rewrite (add_bookmark_eq B u {| win := b; fs := d1 |} Hbm),
      bool_decide_eq_false_2 by (intros [? | ?]; contradiction).
    cbv zeta. cbn [win fs]. rewrite Hpath, write_text_writable by exact Hw.
    reflexivity.
  - intros incog'.
    set (d2 := put_file bpath (dumps (str_list (B ++ [u]))) d1).
    assert (isdir d2 home = true) as Hh2 by exact Hh1.
    assert (isfile d2 root = false) as Hr2.
    { subst d2. rewrite isfile_put_file_ne by exact Hne.
      unfold isfile. rewrite Hf1. exact Hroot. }
    destruct (Browser_init_ok incog' d2 Hh2 Hr2) as [b' Hb']. fold root in Hb'.
    eexists b', _. split; [exact Hb' |].
    pose proof (Browser_init_fresh _ _ _ _ Hb')
      as (Hincog' & _ & _ & _ & _ & _ & Hpath').
    pose proof (Browser_init_bookmarks _ _ _ _ Hb') as Hbm'.
    rewrite <- Hbp in Hbm', Hpath'. subst d2.
    rewrite load_written in Hbm'
      by (try exact Hw; apply forallb_well_formed_app, Hs).
    injection Hbm' as Hbm'. auto.
Qed.

(* ================================================================== *)
(** * An incognito session *)
(* ================================================================== *)

(** The disk when the constructor returns: made by [os.makedirs] on the
    profile directory, nothing else. *)
Lemma Browser_init_fs (incog : bool) (d d1 : filesystem) (b : Browser) :
  Browser_init home incog d = (Ok b, d1) ->
  grown_towards (os_path_join home [".pyside_browser_profile"]) d d1 /\
  (isdir d home = true ->
   isdir d (os_path_join home [".pyside_browser_profile"]) = true -> d1 = d).
Proof.
  unfold Browser_init, bind. rewrite bookmarks_dirname.
  set (root := os_path_join home [".pyside_browser_profile"]).
  pose proof (makedirs_frame root d) as Hg.
  assert (isdir d home = true -> isdir d root = true ->
          os_makedirs root d = (Ok tt, d)) as Hsame.
  { intros Hh Hr. unfold root, os_path_join. rewrite makedirs_child by exact Hh.
    fold (os_path_join home [".pyside_browser_profile"]). fold root.
    rewrite Hr. reflexivity. }
  destruct (os_makedirs root d) as [[[]|e] da] eqn:Ea; [| discriminate].
  cbn [snd] in Hg. rewrite load_bookmarks_eq, new_tab_eq, create_profile_eq.
  cbn [win fs incognito]. destruct incog.
  - intros H. injection H as _ <-. split; [exact Hg |].
    intros Hh Hr. specialize (Hsame Hh Hr). congruence.
  - fold root. pose proof (makedirs_frame root da) as Hg2.
    destruct (os_makedirs root da) as [[[]|e] db] eqn:Eb; [| discriminate].
    cbn [snd] in Hg2. intros H. injection H as _ <-. split.
    + eapply grown_trans; [reflexivity | exact Hg | exact Hg2].
    + intros Hh Hr. specialize (Hsame Hh Hr).
      assert (da = d) as -> by congruence. congruence.
Qed.

(** Browsing in an incognito window never reaches the disk. *)
Lemma run_fs_incognito (es : list event) (w : world) :
  incognito (win w) = true -> forallb browsing es = true ->
  fs (run home es w) = fs w.
Proof.
  revert w. induction es as [|e es IH]; intros w Hi Hb; [reflexivity |].
  cbn [forallb] in Hb. apply andb_true_iff in Hb as [He Hb].
  rewrite run_cons, IH; [| rewrite post_incognito; exact Hi | exact Hb].
  rewrite post_fs, Hi. destruct e; try reflexivity; discriminate.
Qed.

(** In an incognito window every view has the off-the-record profile. *)
Lemma run_profiles_incognito (es : list event) (w : world) :
  incognito (win w) = true ->
  Forall (fun pr => pr = setUrlRequestInterceptor AdBlocker_init
                           (profile_of home true))
         (List.map page_profile (views (win w))) ->
  Forall (fun pr => pr = setUrlRequestInterceptor AdBlocker_init
                           (profile_of home true))
         (List.map page_profile (views (win (run home es w)))).
Proof.
  revert w. induction es as [|e es IH]; intros w Hi HF; [exact HF |].
  rewrite run_cons. apply IH; [rewrite post_incognito; exact Hi |].
  destruct (post_profiles e w) as [-> | ->]; [exact HF |].
  apply Forall_app. split; [exact HF |]. rewrite Hi.
  apply Forall_singleton. reflexivity.
Qed.

(** C9. An incognito window is constructed, browses (any events but
    adding a bookmark or saving a download) and is dropped.  Its history
    is empty at the end; no file on the disk has been written, removed or
    changed; no directory below the profile directory has been made (the
    only directories the run can have made are the profile directory
    itself and directories above it, by the constructor, and when the
    home and profile directories exist the disk is exactly as before);
    and every view has the off-the-record profile, with no name, no cache
    path, no storage path and no persistent cookies. *)
Theorem incognito_session_leaves_no_trace
    (d d1 : filesystem) (b : Browser) (es : list event) :
  let root := os_path_join home [".pyside_browser_profile"] in
  Browser_init home true d = (Ok b, d1) ->
  forallb browsing es = true ->
  history (win (run home es {| win := b; fs := d1 |})) = [] /\
  files (fs (run home es {| win := b; fs := d1 |})) = files d /\
  (forall p, root `prefix_of` p -> p <> root ->
             p ∈ dirs (fs (run home es {| win := b; fs := d1 |})) <->
             p ∈ dirs d) /\
  grown_towards root d (fs (run home es {| win := b; fs := d1 |})) /\
  (isdir d home = true -> isdir d root = true ->
   fs (run home es {| win := b; fs := d1 |}) = d) /\
  Forall (fun v =>
            storageName (page_profile v) = None /\
            cachePath (page_profile v) = None /\
            persistentStoragePath (page_profile v) = None /\
            persistentCookiesPolicy (page_profile v) = NoPersistentCookies)
         (views (win (run home es {| win := b; fs := d1 |}))).
Proof.
  intros root Hinit Hes.
  pose proof (Browser_init_fresh _ _ _ _ Hinit)
    as (Hincog & Hhist & _ & _ & _ & Hviews & _).
  pose proof (Browser_init_fs _ _ _ _ Hinit) as [Hg Hsame]. fold root in Hg, Hsame.
  rewrite run_fs_incognito by assumption. cbn [fs].
  rewrite run_history_incognito by exact Hincog. cbn [win].
  split; [exact Hhist |]. split; [apply Hg |]. split; [| split; [exact Hg |]].
  - intros p Hp Hne. destruct Hg as (_ & Hm & Hd). split; [| apply Hm].
    intros Hin. destruct (Hd p Hin) as [H | H]; [exact H |].
    exfalso. apply Hne. apply (anti_symm prefix); assumption.
  - split; [exact Hsame |].
    pose proof (run_profiles_incognito es {| win := b; fs := d1 |} Hincog) as HF.
    cbn [win] in HF. rewrite Hviews in HF at 1.
    specialize (HF ltac:(repeat constructor)).
    apply Forall_fmap in HF. eapply Forall_impl; [exact HF |].
    intros v Hv. cbn beta in Hv. unfold compose in Hv. rewrite Hv. auto.
Qed.

(* ================================================================== *)
(** * Going to a URL *)
(* ================================================================== *)

Lemma lstrip_spec (s : str) :
  exists a, s = a ++ lstrip s /\ forallb isspace a = true /\
            match lstrip s with
            | c :: _ => isspace c = false
            | [] => True
            end.
Proof.
  induction s as [|c s (a & Ha & Hsp & Hhd)].
  - exists []. cbn. auto.
  - cbn [lstrip]. destruct (isspace c) eqn:E.
    + exists (c :: a). cbn [forallb app]. rewrite E, Hsp, <- Ha. auto.
    + exists []. cbn [forallb app]. auto.
Qed.

Lemma rstrip_spec (s : str) :
  exists c, s = rstrip s ++ c /\ forallb isspace c = true /\
            match rev (rstrip s) with
            | x :: _ => isspace x = false
            | [] => True
            end.
Proof.
  unfold rstrip. destruct (lstrip_spec (rev s)) as (a & Ha & Hsp & Hhd).
  exists (rev a). rewrite rev_involutive. split; [| split].
  - rewrite <- rev_app_distr, <- Ha, rev_involutive. reflexivity.
  - rewrite forallb_forall in *. intros x Hx. apply Hsp, in_rev, Hx.
  - exact Hhd.
Qed.

(** [strip] removes a run of white space at each end, and only that. *)
Lemma strip_spec (s : str) :
  exists a c,
    s = a ++ strip s ++ c /\
    forallb isspace a = true /\ forallb isspace c = true /\
    match strip s with
    | x :: _ => isspace x = false
    | [] => True
    end /\
    match rev (strip s) with
    | x :: _ => isspace x = false
    | [] => True
    end.
Proof.
  unfold strip.
  destruct (lstrip_spec s) as (a & Ha & Hsa & Hhd).
  destruct (rstrip_spec (lstrip s)) as (c & Hc & Hsc & Htl).
  exists a, c. repeat split; try assumption.
  - rewrite <- Hc. exact Ha.
  - destruct (rstrip (lstrip s)) as [|x t] eqn:E; [exact I |].
    rewrite Hc in Hhd. exact Hhd.
Qed.

(** C8 (counterexample). The text [example.com] followed by a space has
    no scheme prefix, yet what is loaded is not [https://] followed by
    that text: the space is gone. *)
Lemma go_to_url_drops_trailing_space :
  startswith_any (py "example.com ") [py "http://"; py "https://"] = false /\
  go_to_url_target (py "example.com ") = py "https://example.com" /\
  py "https://example.com" <> py "https://" ++ py "example.com ".
Proof. repeat split; try reflexivity. discriminate. Qed.

(** C8 (amended). Return in the URL bar, holding the text [s], first
    strips the white space at both ends of [s]; the current view is then
    given the stripped text as it is when that text starts with
    [http://] or [https://] (in lower case), and [https://] followed by
    the stripped text otherwise. *)
Theorem go_to_url_loads_stripped_text (s : str) (w : world) (id : nat) :
  view (win w) = Some id ->
  (id < length (views (win w)))%nat ->
  (exists a c,
      s = a ++ strip s ++ c /\
      forallb isspace a = true /\ forallb isspace c = true /\
      match strip s with x :: _ => isspace x = false | [] => True end /\
      match rev (strip s) with x :: _ => isspace x = false | [] => True end) /\
  (((exists r, strip s = py "http://" ++ r) \/
    (exists r, strip s = py "https://" ++ r)) ->
   url <$> views (win (run home [textEdited s; returnPressed] w)) !! id =
     Some (strip s)) /\
  (~ ((exists r, strip s = py "http://" ++ r) \/
      (exists r, strip s = py "https://" ++ r)) ->
   url <$> views (win (run home [textEdited s; returnPressed] w)) !! id =
     Some (py "https://" ++ strip s)).
Proof.
  intros Hv Hid. split; [apply strip_spec |].
  assert (url <$> views (win (run home [textEdited s; returnPressed] w)) !! id =
          Some (go_to_url_target s)) as Hrun.
  { unfold run, post. cbn [fold_left handle].
    unfold update, modify, go_to_url, view_setUrl, bind, self, gets.
    cbn [snd fst win with_url_bar url_bar view]. rewrite Hv.
    unfold update, modify. cbn [snd win with_views views].
    rewrite list_lookup_alter. rewrite decide_True by reflexivity.
    cbn [views with_url_bar].
    destruct (lookup_lt_is_Some_2 _ _ Hid) as [v ->]. reflexivity. }
  rewrite Hrun. unfold go_to_url_target, startswith_any. cbn [existsb].
  rewrite orb_false_r.
  split; intros H.
  - replace (startswith (strip s) (py "http://") ||
             startswith (strip s) (py "https://")) with true; [reflexivity |].
    symmetry. apply orb_true_iff.
    destruct H as [H | H]; [left | right]; apply startswith_spec; exact H.
  - replace (startswith (strip s) (py "http://") ||
             startswith (strip s) (py "https://")) with false; [reflexivity |].
    symmetry. apply orb_false_iff.
    split; apply not_true_is_false; intros E; apply startswith_spec in E;
      apply H; auto.
Qed.

(* ================================================================== *)
(** * Further properties *)
(* ================================================================== *)

(** X1. The order of the rules does not matter to the decision. *)
Theorem decision_order_independent (R R' : list str) (u : str) :
  Permutation R R' -> decision R u = decision R' u.
Proof.
  intros HP. unfold decision, interceptRequest. cbn [blocklist requestUrl request].
  assert (existsb (fun p => str_contains u p) R =
          existsb (fun p => str_contains u p) R') as ->.
  { induction HP as [| x l l' _ IH | x y l | l l' l'' _ IH1 _ IH2]; simpl.
    - reflexivity.
    - rewrite IH. reflexivity.
    - destruct (str_contains u y), (str_contains u x); reflexivity.
    - congruence. }
  reflexivity.
Qed.

(** X2. Every view a window ever holds has the profile of the window's
    mode, with the block list of the program installed: an incognito
    window configures no path, a persistent one the fixed cache and
    storage directories under the profile directory, and both the same
    user agent. *)
Theorem every_view_has_the_profile_of_its_window
    (incog : bool) (d d1 : filesystem) (b : Browser) (es : list event) :
  Browser_init home incog d = (Ok b, d1) ->
  Forall (fun v =>
            page_profile v =
              setUrlRequestInterceptor AdBlocker_init (profile_of home incog))
         (views (win (run home es {| win := b; fs := d1 |}))) /\
  httpUserAgent (profile_of home incog) = Some USER_AGENT /\
  cachePath (profile_of home true) = None /\
  persistentStoragePath (profile_of home true) = None /\
  persistentCookiesPolicy (profile_of home true) = NoPersistentCookies /\
  cachePath (profile_of home false) =
    Some (os_path_join home [".pyside_browser_profile"; "cache"]) /\
  persistentStoragePath (profile_of home false) =
    Some (os_path_join home [".pyside_browser_profile"; "storage"]) /\
  persistentCookiesPolicy (profile_of home false) = ForcePersistentCookies.
Proof.
  intros Hinit.
  pose proof (Browser_init_fresh _ _ _ _ Hinit)
    as (Hincog & _ & _ & _ & _ & Hviews & _).
  split.
  - assert (forall es w,
               incognito (win w) = incog ->
               Forall (fun pr => pr = setUrlRequestInterceptor AdBlocker_init
                                        (profile_of home incog))
                      (List.map page_profile (views (win w))) ->
               Forall (fun pr => pr = setUrlRequestInterceptor AdBlocker_init
                                        (profile_of home incog))
                      (List.map page_profile (views (win (run home es w)))))
      as Hrun.
    { clear. intros es. induction es as [|e es IH]; intros w Hi HF; [exact HF |].
      rewrite run_cons. apply IH; [rewrite post_incognito; exact Hi |].
      destruct (post_profiles e w) as [-> | ->]; [exact HF |].
      apply Forall_app. split; [exact HF |]. rewrite Hi.
      apply Forall_singleton. reflexivity. }
    specialize (Hrun es {| win := b; fs := d1 |} Hincog).
    cbn [win] in Hrun. rewrite Hviews in Hrun at 1.
    specialize (Hrun ltac:(repeat constructor)).
    apply Forall_fmap in Hrun. exact Hrun.
  - unfold profile_of, os_path_join. cbn. rewrite <- !app_assoc.
    destruct incog; repeat split; reflexivity.
Qed.

(** X3. When the bookmark file cannot be opened for writing, [add_bookmark]
    raises after it has appended: the list in memory holds the new URL,
    the disk does not, and a second call finds the URL in memory and
    writes nothing either. *)
Theorem add_bookmark_write_failure (B : list str) (u : str) (w : world) :
  bookmarks (win w) = str_list B ->
  u <> [] -> u ∉ B ->
  writable (fs w) (bookmarks_path (win w)) = false ->
  exists e,
    add_bookmark u w =
      (Raise e, {| win := with_bookmarks (str_list (B ++ [u])) (win w);
                   fs := fs w |}) /\
    add_bookmark u {| win := with_bookmarks (str_list (B ++ [u])) (win w);
                      fs := fs w |} =
      (Ok tt, {| win := with_bookmarks (str_list (B ++ [u])) (win w);
                 fs := fs w |}).
Proof.
  intros HB Hu Hin Hw.
  assert (exists e, write_text (bookmarks_path (win w))
                      (dumps (str_list (B ++ [u]))) (fs w) = (Raise e, fs w))
    as [e He].
  { unfold writable in Hw. unfold write_text.
    destruct (isdir (fs w) (bookmarks_path (win w))); [eexists; reflexivity |].
    destruct (isdir (fs w) (dirname (bookmarks_path (win w))));
      [| eexists; reflexivity].
    cbn [negb andb] in *.
    destruct (files (fs w) !! bookmarks_path (win w)) as [[| |t]|];
      try discriminate.
    eexists; reflexivity. }
  exists e. split.
  - rewrite (add_bookmark_eq B u w HB), bool_decide_eq_false_2
      by (intros [? | ?]; contradiction).
    cbv zeta. rewrite He. reflexivity.
  - rewrite (add_bookmark_eq (B ++ [u]) u) by reflexivity.
    rewrite bool_decide_eq_true_2; [reflexivity |].
    right. apply elem_of_app. right. apply list_elem_of_here.
Qed.

(** X4. When [bookmarks.json] holds JSON that is not a list, [add_bookmark]
    with a non-empty URL raises and changes nothing: [TypeError] from
    the membership test on [null], a boolean or a number,
    [AttributeError] from [append] on an object that lacks the key or a
    string that lacks the text. *)
Theorem add_bookmark_on_a_non_list (u : str) (w : world) :
  u <> [] ->
  match bookmarks (win w) with
  | PyNone | PyBool _ | PyNum _ => add_bookmark u w = (Raise TypeError, w)
  | PyStr s =>
      str_contains s u = false -> add_bookmark u w = (Raise AttributeError, w)
  | PyDict items =>
      existsb (fun kv => bool_decide (fst kv = u)) items = false ->
      add_bookmark u w = (Raise AttributeError, w)
  | PyList _ => True
  end.
Proof.
  intros Hu. destruct u as [|c u]; [contradiction |].
  unfold add_bookmark, bind, self, gets. cbn [fst snd].
  destruct (bookmarks (win w)) as [| | | s | l | items]; cbn;
    try reflexivity; try exact I; intros ->; reflexivity.
Qed.

(** The well-formedness asked of the strings cannot be dropped: a high
    surrogate directly followed by a low one is written as two escapes
    and read back as the one code point they encode.  (No string of this
    kind comes out of the toolkit or of a decoded file.) *)
Remark adjacent_surrogates_are_joined :
  loads (dumps (str_list [[55357; 56832]])) = Ok (str_list [[128512]]).
Proof. vm_compute. reflexivity. Qed.

(* ================================================================== *)
(** * More on the matcher and on the URL the bar loads *)
(* ================================================================== *)

Lemma decision_eq (R : list str) (u : str) :
  decision R u = existsb (fun p => str_contains u p) R.
Proof.
  unfold decision, interceptRequest. cbn [blocklist requestUrl request].
  destruct (existsb _ R); reflexivity.
Qed.

(** X6. Rules only add up: a URL is blocked under two lists put together
    exactly when it is blocked under one of them, so adding rules never
    unblocks a URL.  A URL that is blocked stays blocked inside any
    longer URL.  An empty pattern in the list blocks every URL. *)
Theorem decision_adds_up (R R' : list str) (u a b : str) :
  decision (R ++ R') u = decision R u || decision R' u /\
  (decision R u = true -> decision R (a ++ u ++ b) = true) /\
  (In [] R -> decision R u = true).
Proof.
  rewrite !decision_eq. split; [apply existsb_app |]. split.
  - intros H. apply existsb_exists in H as [r [Hin Hr]].
    apply existsb_exists. exists r. split; [exact Hin |].
    apply str_contains_spec in Hr as (x & y & ->).
    apply str_contains_spec. exists (a ++ x), (y ++ b).
    rewrite <- !app_assoc. reflexivity.
  - intros H. apply existsb_exists. exists []. split; [exact H |].
    apply str_contains_spec. exists [], u. reflexivity.
Qed.

(** ** The text [go_to_url] hands to the view *)

Lemma lstrip_id (s : str) :
  match s with x :: _ => isspace x = false | [] => True end -> lstrip s = s.
Proof. destruct s as [|x s]; [reflexivity |]. cbn [lstrip]. intros ->. reflexivity. Qed.

Lemma rstrip_id (s : str) :
  match rev s with x :: _ => isspace x = false | [] => True end ->
  rstrip s = s.
Proof.
  intros H. unfold rstrip. rewrite lstrip_id by exact H. apply rev_involutive.
Qed.

Lemma strip_id (s : str) :
  match s with x :: _ => isspace x = false | [] => True end ->
  match rev s with x :: _ => isspace x = false | [] => True end ->
  strip s = s.
Proof.
  intros H1 H2. unfold strip. rewrite (lstrip_id s H1). apply rstrip_id, H2.
Qed.

(** The first and last characters of [p ++ s], for a non-empty [p]. *)
Lemma ends_of_prefixed (c : N) (p s : str) :
  isspace c = false ->
  match rev p with x :: _ => isspace x = false | [] => isspace c = false end ->
  match rev s with x :: _ => isspace x = false | [] => True end ->
  match rev ((c :: p) ++ s) with x :: _ => isspace x = false | [] => True end.
Proof.
  intros Hc Hp Hs. rewrite rev_app_distr.
  destruct (rev s) as [|x t]; [| exact Hs].
  cbn [app rev]. destruct (rev p) as [|y t]; [exact Hc | exact Hp].
Qed.

Lemma go_to_url_target_fixed (s : str) :
  strip (go_to_url_target s) = go_to_url_target s /\
  startswith_any (go_to_url_target s) [py "http://"; py "https://"] = true.
Proof.
  destruct (strip_spec s) as (a & c & _ & _ & _ & Hhd & Htl).
  unfold go_to_url_target.
  destruct (startswith_any (strip s) [py "http://"; py "https://"]) eqn:E;
    cbn [negb].
  - split; [| exact E]. apply strip_id; assumption.
  - split.
    + apply strip_id; [reflexivity |].
      change (py "https://") with (104 :: py "ttps://").
      apply ends_of_prefixed; [reflexivity | reflexivity | exact Htl].
    + reflexivity.
Qed.

(** X7. Whatever the URL bar holds, the text handed to the view starts
    with [http://] or [https://]; normalising it again changes nothing;
    and a bar that is empty or holds white space only loads [https://]
    with nothing after it. *)
Theorem go_to_url_target_is_a_normal_form (s : str) :
  (startswith (go_to_url_target s) (py "http://") ||
   startswith (go_to_url_target s) (py "https://")) = true /\
  go_to_url_target (go_to_url_target s) = go_to_url_target s /\
  (forallb isspace s = true -> go_to_url_target s = py "https://").
Proof.
  destruct (go_to_url_target_fixed s) as [Hstrip Hstart].
  split; [| split].
  - unfold startswith_any in Hstart. cbn [existsb] in Hstart.
    rewrite orb_false_r in Hstart. exact Hstart.
  - unfold go_to_url_target at 1. rewrite Hstrip, Hstart. reflexivity.
  - intros Hws.
    assert (lstrip s = []) as Hl.
    { clear -Hws. induction s as [|c s IH]; [reflexivity |].
      cbn [forallb] in Hws. apply andb_true_iff in Hws as [Hc Hs].
      cbn [lstrip]. rewrite Hc. apply IH, Hs. }
    unfold go_to_url_target, strip. rewrite Hl. reflexivity.
Qed.

(* ================================================================== *)
(** * More on the window: history, downloads, names of views *)
(* ================================================================== *)

Lemma run_app (es es' : list event) (w : world) :
  run home (es ++ es') w = run home es' (run home es w).
Proof. unfold run. apply fold_left_app. Qed.

(** X8. The history only grows at its end; in a persistent window the
    URLs in it after a run are those it held before and those the views
    reported during the run, each of them there. *)
Theorem history_records_what_was_reported (es : list event) (w : world) :
  history (win w) `prefix_of` history (win (run home es w)) /\
  (incognito (win w) = false ->
   forall u, u ∈ history (win (run home es w)) <->
             u ∈ history (win w) \/ u ∈ reported_urls es).
Proof.
  revert w. induction es as [|e es IH]; intros w.
  - split; [reflexivity |]. intros _ u. cbn [reported_urls flat_map run fold_left].
    rewrite elem_of_nil. tauto.
  - rewrite run_cons. destruct (IH (post home e w)) as [IHp IHm].
    assert (history (win w) `prefix_of` history (win (post home e w))) as Hp.
    { rewrite post_history. destruct e; try reflexivity.
      destruct (incognito (win w)); [reflexivity |].
      destruct (bool_decide _); [reflexivity | apply prefix_app_r; reflexivity]. }
    split; [etransitivity; eassumption |].
    intros Hi u. rewrite IHm by (rewrite post_incognito; exact Hi).
    rewrite post_history, Hi.
    change (reported_urls (e :: es))
      with (match e with urlChanged x => [x] | _ => [] end ++ reported_urls es).
    rewrite elem_of_app.
    destruct e; try (rewrite elem_of_nil; tauto).
    rewrite list_elem_of_singleton.
    case_bool_decide as Hin.
    + split; [tauto |]. intros [H | [-> | H]]; auto.
    + rewrite elem_of_app, list_elem_of_singleton. tauto.
Qed.

Lemma post_downloads (e : event) (w : world) :
  downloads (win (post home e w)) =
    match e with
    | downloadRequested (c :: d) => downloads (win w) ++ [c :: d]
    | _ => downloads (win w)
    end.
Proof. slot_cases e w; reflexivity. Qed.


(** ** Names of views *)

Lemma post_views_length (e : event) (w : world) :
  (length (views (win w)) <= length (views (win (post home e w))))%nat.
Proof.
  slot_cases e w; rewrite ?length_alter, ?length_app; cbn [length]; lia.
Qed.

Lemma names_after_new_tab (u : str) (b : Browser) :
  names_are_views b -> names_are_views (with_new_tab home u b).
Proof.
  intros (Hnd & Hall & Hv). unfold names_are_views, with_new_tab.
  cbn [tabs views view with_view with_tabs with_views].
  rewrite length_app. cbn [length]. split; [| split].
  - apply NoDup_app. split; [exact Hnd |]. split; [| apply NoDup_singleton].
    intros x Hx Hx'. apply list_elem_of_singleton in Hx'. subst x.
    rewrite Forall_forall in Hall. specialize (Hall _ Hx). lia.
  - apply Forall_app. split.
    + eapply Forall_impl; [exact Hall |]. cbn beta. intros; lia.
    + apply Forall_singleton. lia.
  - lia.
Qed.

Lemma post_keeps_names (e : event) (w : world) :
  match e with
  | urlChanged _ | textEdited _ | add_bookmark_triggered _
  | downloadRequested _ =>
      tabs (win (post home e w)) = tabs (win w) /\
      views (win (post home e w)) = views (win w) /\
      view (win (post home e w)) = view (win w)
  | _ => True
  end.
Proof. slot_cases e w; auto. Qed.

Lemma post_names (e : event) (w : world) :
  names_are_views (win w) -> names_are_views (win (post home e w)).
Proof.
  intros H. pose proof H as (Hnd & Hall & Hv).
  destruct e.
  - (* urlChanged *)
    destruct (post_keeps_names (urlChanged url0) w) as (Ht & Hvs & Hvw).
    unfold names_are_views. rewrite Ht, Hvs, Hvw. exact H.
  - (* tabCloseRequested *)
    unfold post. cbn [handle]. unfold close_tab, update, modify. cbn [snd win].
    destruct (1 <? length (tabs (win w)))%nat; [| exact H].
    unfold names_are_views, removeTab. cbn [tabs views view with_tabs].
    destruct (0 <=? index)%Z; [| exact H].
    split; [| split; [| exact Hv]].
    + exact (sublist_NoDup _ _ Hnd (sublist_delete _ _)).
    + apply Forall_delete, Hall.
  - (* currentChanged *)
    unfold post. cbn [handle].
    unfold tab_changed, _update_nav_state, bind, update, modify, self, gets.
    cbn [snd fst win view with_view].
    assert (names_are_views (with_view (widget index (tabs (win w))) (win w)))
      as Hn.
    { unfold names_are_views. cbn [tabs views view with_view].
      split; [exact Hnd |]. split; [exact Hall |].
      unfold widget. destruct (0 <=? index)%Z; [| exact I].
      destruct (tabs (win w) !! Z.to_nat index) as [id|] eqn:E; [| exact I].
      rewrite Forall_forall in Hall. apply Hall.
      eapply list_elem_of_lookup_2, E. }
    destruct (widget index (tabs (win w))); exact Hn.
  - (* new_tab_clicked *)
    destruct (new_tab_win HOME_URL w) as [Hw | Hw]; unfold post; cbn [handle];
      rewrite Hw; [exact H | apply names_after_new_tab, H].
  - (* textEdited *) exact H.
  - (* returnPressed *)
    unfold post. cbn [handle].
    unfold go_to_url, view_setUrl, bind, self, gets, update, modify, raise.
    cbn [fst snd win]. destruct (view (win w)) as [id|] eqn:E; [| exact H].
    cbn [snd win]. unfold names_are_views.
    cbn [tabs views view with_views]. rewrite length_alter, E. auto.
  - (* home_triggered *)
    unfold post. cbn [handle].
    unfold browser_home, view_setUrl, bind, self, gets, update, modify, raise.
    cbn [fst snd win]. destruct (view (win w)) as [id|] eqn:E; [| exact H].
    cbn [snd win]. unfold names_are_views.
    cbn [tabs views view with_views]. rewrite length_alter, E. auto.
  - (* add_bookmark_triggered *)
    destruct (post_keeps_names (add_bookmark_triggered current) w)
      as (Ht & Hvs & Hvw).
    unfold names_are_views. rewrite Ht, Hvs, Hvw. exact H.
  - (* downloadRequested *)
    unfold post. cbn [handle]. unfold _handle_download.
    destruct dest; exact H.
Qed.

Lemma run_names (es : list event) (w : world) :
  names_are_views (win w) -> names_are_views (win (run home es w)).
Proof.
  revert w. induction es as [|e es IH]; intros w H; [exact H |].
  rewrite run_cons. apply IH, post_names, H.
Qed.

Lemma Browser_init_names (incog : bool) (d d1 : filesystem) (b : Browser) :
  Browser_init home incog d = (Ok b, d1) -> names_are_views b.
Proof.
  intros H. apply Browser_init_fresh in H as (_ & _ & _ & Ht & Hv & Hvs & _).
  unfold names_are_views. rewrite Ht, Hv, Hvs. cbn [length].
  split; [apply NoDup_singleton |]. split; [apply Forall_singleton |]; lia.
Qed.

(** X10. In every state a window reaches, the tab widget holds no view
    twice, every tab holds a view the window has made, and [self.view]
    is [None] or such a view; the views made are never fewer after an
    event than before. *)
Theorem tabs_and_view_name_views (es : list event) (w : world) :
  (names_are_views (win w) -> names_are_views (win (run home es w))) /\
  (forall incog d b d1,
      Browser_init home incog d = (Ok b, d1) ->
      names_are_views (win (run home es {| win := b; fs := d1 |}))) /\
  (length (views (win w)) <= length (views (win (run home es w))))%nat.
Proof.
  split; [apply run_names |]. split.
  - intros incog d b d1 H. apply run_names. cbn [win].
    eapply Browser_init_names, H.
  - revert w. induction es as [|e es IH]; intros w; [reflexivity |].
    rewrite run_cons. etransitivity; [apply post_views_length | apply IH].
Qed.

(* ================================================================== *)
(** * When slots raise, and what closing a tab does *)
(* ================================================================== *)




(* ================================================================== *)
(** * The history dialog *)
(* ================================================================== *)

Lemma rev_lookup (l : list str) (k : nat) :
  rev l !! k = if (k <? length l)%nat then l !! (length l - S k)%nat else None.
Proof.
  rewrite rev_alt. change (rev_append l []) with (reverse l).
  destruct (k <? length l)%nat eqn:E.
  - apply Nat.ltb_lt in E. apply reverse_lookup. exact E.
  - apply Nat.ltb_ge in E. apply lookup_ge_None. rewrite length_reverse. exact E.
Qed.

Lemma view_setUrl_frame (u : str) (w : world) :
  let w' := snd (view_setUrl u w) in
  history (win w') = history (win w) /\ tabs (win w') = tabs (win w) /\
  view (win w') = view (win w) /\ bookmarks (win w') = bookmarks (win w) /\
  fs w' = fs w /\ length (views (win w')) = length (views (win w)).
Proof.
  unfold view_setUrl, bind, self, gets, update, modify, raise.
  cbn [fst snd]. destruct w as [b d]. destruct b. cbn [win view].
  destruct view0; cbn; rewrite ?length_alter; repeat split; reflexivity.
Qed.

(** X14. The history dialog lists the history most recent first: row
    [k] is entry [n - 1 - k] of the [n] the window has visited.
    Accepting the dialog on a row loads that entry in the current view;
    a dialog that is dismissed, has no current row, or whose current
    row holds the empty text changes nothing.  In no case does the slot
    itself touch the history, the tabs or the disk. *)
Theorem show_history_lists_most_recent_first
    (row : option nat) (accepted : bool) (k : nat) (u : str) (w : world) :
  let h := history (win w) in
  (accepted = false \/ row = None -> show_history row accepted w = (Ok tt, w)) /\
  ((length h <= k)%nat -> show_history (Some k) true w = (Ok tt, w)) /\
  (h !! k = Some u ->
   show_history (Some (length h - 1 - k)%nat) true w =
     if bool_decide (u = []) then (Ok tt, w) else view_setUrl u w) /\
  (last h = Some u -> u <> [] -> show_history (Some 0%nat) true w = view_setUrl u w) /\
  (let w' := snd (show_history row accepted w) in
   history (win w') = h /\ tabs (win w') = tabs (win w) /\ fs w' = fs w).
Proof.
  intros h.
  assert (forall r a, show_history r a w =
            if a then
              match r with
              | Some i =>
                  match (if (i <? length h)%nat then h !! (length h - S i)%nat
                         else None) with
                  | Some (c :: v) => view_setUrl (c :: v) w
                  | _ => (Ok tt, w)
                  end
              | None => (Ok tt, w)
              end
            else (Ok tt, w)) as Heq.
  { intros r a. unfold show_history, open_selected, selected_text, bind, self,
      gets, ret.
    cbn [fst snd currentRow listw setCurrentRow ListDialog_init].
    destruct a; [| reflexivity]. destruct r as [i|]; [| reflexivity].
    rewrite rev_lookup. fold h.
    destruct (if (i <? length h)%nat then h !! (length h - S i)%nat else None)
      as [[|c v]|]; reflexivity. }
  assert (forall i v, h !! i = Some v ->
            show_history (Some (length h - 1 - i)%nat) true w =
              if bool_decide (v = []) then (Ok tt, w) else view_setUrl v w)
    as Hrow.
  { intros i v Hi. rewrite Heq.
    pose proof (lookup_lt_Some _ _ _ Hi) as Hlt.
    replace (length h - 1 - i <? length h)%nat with true
      by (symmetry; apply Nat.ltb_lt; lia).
    replace (length h - S (length h - 1 - i))%nat with i by lia.
    rewrite Hi. destruct v; reflexivity. }
  split; [| split; [| split; [| split]]].
  - intros [-> | ->]; rewrite Heq; [reflexivity |]. destruct accepted; reflexivity.
  - intros Hk. rewrite Heq.
    replace (k <? length h)%nat with false
      by (symmetry; apply Nat.ltb_ge; exact Hk).
    reflexivity.
  - apply Hrow.
  - intros Hl Hu. rewrite last_lookup in Hl.
    pose proof (lookup_lt_Some _ _ _ Hl) as Hlt.
    specialize (Hrow _ _ Hl).
    replace (length h - 1 - Init.Nat.pred (length h))%nat with 0%nat in Hrow by lia.
    rewrite Hrow. rewrite (bool_decide_eq_false_2 (u = [])) by exact Hu.
    reflexivity.
  - rewrite Heq.
    destruct accepted; [| auto]. destruct row as [i|]; [| auto].
    destruct (if (i <? length h)%nat then h !! (length h - S i)%nat else None)
      as [[|c v]|]; auto.
    destruct (view_setUrl_frame (c :: v) w) as (H1 & H2 & _ & _ & H3 & _). auto.
Qed.

(* ================================================================== *)
(** * Bookmarks over a session *)
(* ================================================================== *)

Lemma post_bookmarks_other (e : event) (w : world) :
  match e with
  | add_bookmark_triggered _ => True
  | _ => bookmarks (win (post home e w)) = bookmarks (win w)
  end.
Proof. slot_cases e w; auto. Qed.

Lemma post_bookmarks_path (e : event) (w : world) :
  bookmarks_path (win (post home e w)) = bookmarks_path (win w).
Proof. slot_cases e w; auto. Qed.

(** The bookmarks after one event, for a window whose bookmarks are the
    strings [B]. *)
Lemma post_bookmarks (e : event) (B : list str) (w : world) :
  bookmarks (win w) = str_list B ->
  bookmarks (win (post home e w)) =
    str_list (match e with
              | add_bookmark_triggered u =>
                  if bool_decide (u = [] \/ u ∈ B) then B else B ++ [u]
              | _ => B
              end).
Proof.
  intros HB. pose proof (post_bookmarks_other e w) as Ho.
  destruct e; try (rewrite Ho; exact HB).
  unfold post. cbn [handle]. rewrite (add_bookmark_eq B) by exact HB.
  case_bool_decide; [exact HB |].
  cbn zeta. destruct (write_text _ _ _) as [r d]. reflexivity.
Qed.

(** X15. Over any run of events the bookmarks only grow at the end, by
    URLs that were asked for, are not empty and were not there before,
    each once, whether the writes to the file succeed or not; a list
    without duplicates stays one. *)
Theorem bookmarks_only_grow (es : list event) (B : list str) (w : world) :
  bookmarks (win w) = str_list B ->
  exists B',
    bookmarks (win (run home es w)) = str_list (B ++ B') /\
    NoDup B' /\
    (forall u, u ∈ B' -> u <> [] /\ (u ∉ B) /\ (u ∈ bookmark_requests es)) /\
    (NoDup B -> NoDup (B ++ B')).
Proof.
  revert B w. induction es as [|e es IH]; intros B w HB.
  - exists []. rewrite app_nil_r. split; [exact HB |].
    split; [constructor |]. split; [| auto].
    intros u Hu. apply elem_of_nil in Hu. contradiction.
  - rewrite run_cons. pose proof (post_bookmarks e B w HB) as Hstep.
    destruct e;
      try (destruct (IH _ _ Hstep) as (B' & H1 & H2 & H3 & H4);
           exists B'; repeat split; auto; apply (H3 u); assumption).
    case_bool_decide as Hin.
    + destruct (IH _ _ Hstep) as (B' & H1 & H2 & H3 & H4).
      exists B'. repeat split; auto; try (apply (H3 u); assumption).
      cbn [bookmark_requests flat_map]. apply elem_of_app. right.
      apply (H3 u). assumption.
    + destruct (IH _ _ Hstep) as (B' & H1 & H2 & H3 & H4).
      assert (current <> [] /\ current ∉ B) as [Hne Hnin] by tauto.
      exists (current :: B').
      assert (B ++ current :: B' = (B ++ [current]) ++ B') as Happ
        by (rewrite <- app_assoc; reflexivity).
      split; [rewrite Happ; exact H1 |].
      assert (current ∉ B') as Hfresh.
      { intros Hc. destruct (H3 _ Hc) as (_ & Hc' & _). apply Hc'.
        apply elem_of_app. right. apply list_elem_of_here. }
      split; [constructor; assumption |]. split.
      * intros u Hu. cbn [bookmark_requests flat_map].
        apply elem_of_cons in Hu as [-> | Hu].
        -- repeat split; auto. apply list_elem_of_here.
        -- destruct (H3 _ Hu) as (Hu1 & Hu2 & Hu3). repeat split; auto.
           ++ intros Hc. apply Hu2. apply elem_of_app. left. exact Hc.
           ++ apply elem_of_app. right. exact Hu3.
      * intros HndB. rewrite Happ. apply H4.
        apply NoDup_app. split; [exact HndB |]. split; [| apply NoDup_singleton].
        intros x Hx Hx'. apply list_elem_of_singleton in Hx'. subst x.
        contradiction.
Qed.

Lemma writable_grown (d d' : filesystem) :
  grown_towards (os_path_join home [".pyside_browser_profile"]) d d' ->
  writable d (os_path_join home [".pyside_browser_profile"; "bookmarks.json"]) =
    true ->
  writable d' (os_path_join home [".pyside_browser_profile"; "bookmarks.json"]) =
    true.
Proof.
  intros Hg Hw. unfold writable in *.
  rewrite (grown_isdir _ _ _ _ Hg bookmarks_path_not_above_root).
  destruct Hg as (Hf & Hm & _). rewrite Hf.
  apply andb_true_iff in Hw as [Hw H3]. apply andb_true_iff in Hw as [H1 H2].
  rewrite H1, H3. rewrite bookmarks_dirname in *.
  unfold isdir in *. apply bool_decide_eq_true in H2.
  rewrite bool_decide_eq_true_2; [reflexivity |].
  destruct H2 as [H2 | H2]; [left; exact H2 | right; apply Hm; exact H2].
Qed.

(** X16. Take a window on the program's bookmarks file, which it can
    write, holding the strings that loading the file yields.  Over any
    run of events that bookmarks only URLs that survive the trip
    through JSON, the file stays writable and loading it yields what the
    window holds in memory: a window opened at any moment starts from
    the same bookmarks. *)
Theorem disk_and_memory_agree (es : list event) (B : list str) (w : world) :
  let bpath := os_path_join home [".pyside_browser_profile"; "bookmarks.json"] in
  bookmarks_path (win w) = bpath ->
  bookmarks (win w) = str_list B ->
  forallb well_formed B = true ->
  writable (fs w) bpath = true ->
  fst (load_bookmarks bpath (fs w)) = Ok (str_list B) ->
  forallb storable es = true ->
  writable (fs (run home es w)) bpath = true /\
  load_bookmarks bpath (fs (run home es w)) =
    (Ok (bookmarks (win (run home es w))), fs (run home es w)).
Proof.
  intros bpath. revert B w.
  induction es as [|e es IH]; intros B w Hp HB HwfB Hw Hl Hes.
  - split; [exact Hw |]. cbn [run fold_left].
    rewrite load_bookmarks_eq in Hl |- *. cbn [fst] in Hl.
    rewrite HB. congruence.
  - cbn [forallb] in Hes. apply andb_true_iff in Hes as [He Hes].
    rewrite run_cons.
    pose proof (post_bookmarks e B w HB) as Hb.
    pose proof (post_bookmarks_path e w) as Hp'. rewrite Hp in Hp'.
    pose proof (post_fs e w) as Hfs.
    destruct e;
      try (apply (IH B); try assumption; rewrite Hfs; assumption).
    + (* new_tab_clicked *)
      assert (grown_towards (os_path_join home [".pyside_browser_profile"])
                (fs w) (fs (post home new_tab_clicked w))) as Hg.
      { rewrite Hfs. destruct (incognito (win w)); [apply grown_refl |].
        apply makedirs_frame. }
      apply (IH B); try assumption.
      * apply (writable_grown _ _ Hg Hw).
      * rewrite <- Hl. apply load_bookmarks_ext.
        -- apply Hg.
        -- apply (grown_isdir _ _ _ _ Hg bookmarks_path_not_above_root).
    + (* add_bookmark_triggered *)
      cbn [storable] in He.
      unfold post in Hb, Hp' |- *. cbn [handle] in *.
      rewrite (add_bookmark_eq B) in * by exact HB.
      case_bool_decide as Hin.
      * apply (IH B); assumption.
      * cbn zeta in *. rewrite Hp in *.
        rewrite write_text_writable in * by exact Hw. cbn [snd fs win] in *.
        assert (forallb well_formed (B ++ [current]) = true) as Hwf'.
        { apply forallb_well_formed_app. cbn [forallb]. rewrite He, HwfB.
          reflexivity. }
        apply (IH (B ++ [current])); cbn [fs win].
        -- exact Hp'.
        -- reflexivity.
        -- exact Hwf'.
        -- apply written_file. exact Hw.
        -- rewrite load_written by assumption. reflexivity.
        -- exact Hes.
Qed.

(** X17. Two windows that share the bookmarks file and hold the same
    list do not see each other's bookmarks: after the first has added
    [u] and the second [v], each holds its own and the file holds the
    second's list only, so that a window opened afterwards starts
    without [u]. *)
Theorem second_window_overwrites_bookmarks
    (B : list str) (u v : str) (b1 b2 : Browser) (d : filesystem) :
  bookmarks b1 = str_list B -> bookmarks b2 = str_list B ->
  bookmarks_path b2 = bookmarks_path b1 ->
  writable d (bookmarks_path b1) = true ->
  u <> [] -> v <> [] -> u ∉ B -> v ∉ B -> u <> v ->
  forallb well_formed (v :: B) = true ->
  let w1 := post home (add_bookmark_triggered u) {| win := b1; fs := d |} in
  let w2 := post home (add_bookmark_triggered v) {| win := b2; fs := fs w1 |} in
  bookmarks (win w1) = str_list (B ++ [u]) /\
  bookmarks (win w2) = str_list (B ++ [v]) /\
  load_bookmarks (bookmarks_path b1) (fs w2) = (Ok (str_list (B ++ [v])), fs w2) /\
  u ∉ B ++ [v].
Proof.
  intros HB1 HB2 Hp Hw Hu Hv HuB HvB Huv Hwf w1 w2.
  assert (w1 = {| win := with_bookmarks (str_list (B ++ [u])) b1;
                  fs := put_file (bookmarks_path b1)
                          (dumps (str_list (B ++ [u]))) d |}) as E1.
  { unfold w1, post. cbn [handle]. rewrite (add_bookmark_eq B) by exact HB1.
    rewrite bool_decide_eq_false_2 by tauto. cbn zeta. cbn [win fs].
    rewrite write_text_writable by exact Hw. reflexivity. }
  assert (writable (fs w1) (bookmarks_path b1) = true) as Hw1.
  { rewrite E1. cbn [fs]. apply written_file. exact Hw. }
  assert (w2 = {| win := with_bookmarks (str_list (B ++ [v])) b2;
                  fs := put_file (bookmarks_path b1)
                          (dumps (str_list (B ++ [v]))) (fs w1) |}) as E2.
  { unfold w2, post. cbn [handle]. rewrite (add_bookmark_eq B) by exact HB2.
    rewrite bool_decide_eq_false_2 by tauto. cbn zeta. cbn [win fs].
    rewrite Hp. rewrite write_text_writable by exact Hw1. reflexivity. }
  split; [rewrite E1; reflexivity |]. split; [rewrite E2; reflexivity |].
  split.
  - rewrite E2. cbn [fs]. apply load_written; [exact Hw1 |].
    apply forallb_well_formed_app. exact Hwf.
  - intros Hin. apply elem_of_app in Hin as [Hin | Hin]; [contradiction |].
    apply list_elem_of_singleton in Hin. contradiction.
Qed.
(* ================================================================== *)
(** * Opening a window *)
(* ================================================================== *)

(** X18. Where the home directory exists, the constructor fails in one
    case only, with [FileExistsError] and the disk untouched: a regular
    file stands where the profile directory belongs.  Otherwise it
    leaves the profile directory in place and no file changed, and a
    window opened next, in either mode, finds the disk as it is and
    starts from the same bookmarks. *)
Theorem Browser_init_outcome (incog incog' : bool) (d : filesystem) :
  let root := os_path_join home [".pyside_browser_profile"] in
  isdir d home = true ->
  (isdir d root = false -> isfile d root = true ->
   Browser_init home incog d = (Raise FileExistsError, d)) /\
  (isfile d root = false ->
   exists b b' d1,
     Browser_init home incog d = (Ok b, d1) /\
     isdir d1 root = true /\ files d1 = files d /\
     Browser_init home incog' d1 = (Ok b', d1) /\
     bookmarks b' = bookmarks b).
Proof.
  intros root Hh. split.
  - intros Hd Hf. unfold Browser_init, bind. rewrite bookmarks_dirname.
    fold root. unfold root, os_path_join. rewrite makedirs_child by exact Hh.
    fold (os_path_join home [".pyside_browser_profile"]). fold root.
    rewrite Hd, Hf. reflexivity.
  - intros Hf.
    set (d1 := if isdir d root then d else add_dir root d).
    assert (isdir d1 root = true) as Hd1.
    { unfold d1. destruct (isdir d root) eqn:E; [exact E |].
      rewrite isdir_add_dir, bool_decide_eq_true_2 by reflexivity. reflexivity. }
    assert (files d1 = files d) as Hf1
      by (unfold d1; destruct (isdir d root); reflexivity).
    assert (isdir d1 home = true) as Hh1.
    { unfold d1. destruct (isdir d root); [exact Hh |].
      rewrite isdir_add_dir, Hh. apply orb_true_r. }
    assert (isfile d1 root = false) as Hfile1
      by (unfold d1; destruct (isdir d root); exact Hf).
    destruct (Browser_init_ok incog d Hh Hf) as [b Hb].
    destruct (Browser_init_ok incog' d1 Hh1 Hfile1) as [b' Hb'].
    fold root in Hb, Hb'. fold d1 in Hb. rewrite Hd1 in Hb'.
    exists b, b', d1. repeat split; try assumption.
    pose proof (Browser_init_bookmarks _ _ _ _ Hb) as E.
    pose proof (Browser_init_bookmarks _ _ _ _ Hb') as E'.
    rewrite (load_bookmarks_ext _ d d1) in E'; [congruence | exact Hf1 |].
    unfold d1. destruct (isdir d root); [reflexivity |].
    rewrite isdir_add_dir, bool_decide_eq_false_2; [reflexivity |].
    intros H. symmetry in H. exact (root_is_not_bookmarks_path H).
Qed.

(* ================================================================== *)
(** * The status bar *)
(* ================================================================== *)

Lemma on_load_core (e : load_event) (s : shell) :
  core (snd (on_load e s)) = core s.
Proof.
  destruct e; cbn [on_load]; try reflexivity.
  unfold _load_finished, on_status, on_core, _update_nav_state, bind, modify,
    self, gets, ret, raise.
  cbn [fst snd core]. destruct (view (win (core s))); reflexivity.
Qed.

Lemma after_load_app (es es' : list load_event) (s : shell) :
  after_load (es ++ es') s = after_load es' (after_load es s).
Proof. apply fold_left_app. Qed.

Lemma setValue_range (v : Z) (sb : StatusBar) :
  (0 <= bar_value sb <= 100)%Z -> (0 <= bar_value (setValue v sb) <= 100)%Z.
Proof.
  intros H. unfold setValue.
  destruct ((0 <=? v) && (v <=? 100))%Z eqn:E; [| exact H].
  apply andb_true_iff in E as [E1 E2]. apply Z.leb_le in E1, E2.
  cbn [bar_value]. lia.
Qed.

Lemma on_load_range (e : load_event) (s : shell) :
  (0 <= bar_value (status s) <= 100)%Z ->
  (0 <= bar_value (status (snd (on_load e s))) <= 100)%Z.
Proof.
  intros H. destruct e; cbn [on_load].
  - cbn. lia.
  - cbn. apply setValue_range, H.
  - unfold _load_finished, on_status, on_core, _update_nav_state, bind, modify,
      self, gets, ret, raise.
    cbn [fst snd core status]. destruct (view (win (core s))); cbn; lia.
Qed.

(** X19. Whatever the engine has reported before, when a load starts
    the progress bar is shown at 0 under the message [Loading...], and
    when a load finishes the bar is hidden and back at 0 and the
    message says for three seconds how the load ended, also when
    [_update_nav_state] then raises.  Progress reports move the bar
    only: to the value reported when it lies between 0 and 100, and not
    at all otherwise, so that the bar never leaves that range.  None of
    the three slots touches the window's tabs, history or disk. *)
Theorem load_reports_drive_the_status_bar
    (es : list load_event) (ok : bool) (v : Z) (s : shell) :
  let started := status (after_load (es ++ [loadStarted]) s) in
  let finished := status (after_load (es ++ [loadFinished ok]) s) in
  let moved := status (after_load (es ++ [loadProgress v]) s) in
  let before := status (after_load es s) in
  (bar_visible started = true /\ bar_value started = 0%Z /\
   message started = Some (LOADING, None)) /\
  (bar_visible finished = false /\ bar_value finished = 0%Z /\
   message finished =
     Some (if ok then py "Loaded" else py "Load failed", Some 3000%nat)) /\
  (bar_visible moved = bar_visible before /\ message moved = message before /\
   bar_value moved = if ((0 <=? v) && (v <=? 100))%Z then v else bar_value before) /\
  ((0 <= bar_value (status s) <= 100)%Z -> (0 <= bar_value before <= 100)%Z) /\
  core (after_load es s) = core s.
Proof.
  cbn zeta. rewrite !after_load_app.
  set (s1 := after_load es s).
  split; [| split; [| split; [| split]]].
  - cbn. auto.
  - cbn [after_load fold_left on_load].
    unfold _load_finished, on_status, on_core, _update_nav_state, bind, modify,
      self, gets, ret, raise.
    cbn [fst snd core status]. destruct (view (win (core s1))); cbn; auto.
  - cbn [after_load fold_left on_load snd on_status modify status progress_value].
    unfold progress_value, setValue.
    destruct ((0 <=? v) && (v <=? 100))%Z; cbn; auto.
  - unfold s1. clear s1. revert s.
    induction es as [|e es IH]; intros s H; [exact H |].
    apply (IH (snd (on_load e s))), on_load_range, H.
  - unfold s1. clear s1. revert s.
    induction es as [|e es IH]; intros s; [reflexivity |].
    change (after_load (e :: es) s) with (after_load es (snd (on_load e s))).
    rewrite IH. apply on_load_core.
Qed.

(** The profiles of a window's views, over a run. *)
Lemma run_profiles (incog : bool) (es : list event) (w : world) :
  incognito (win w) = incog ->
  Forall (fun pr => pr = setUrlRequestInterceptor AdBlocker_init
                           (profile_of home incog))
         (List.map page_profile (views (win w))) ->
  Forall (fun pr => pr = setUrlRequestInterceptor AdBlocker_init
                           (profile_of home incog))
         (List.map page_profile (views (win (run home es w)))).
Proof.
  revert w. induction es as [|e es IH]; intros w Hi HF; [exact HF |].
  rewrite run_cons. apply IH; [rewrite post_incognito; exact Hi |].
  destruct (post_profiles e w) as [-> | ->]; [exact HF |].
  apply Forall_app. split; [exact HF |]. rewrite Hi.
  apply Forall_singleton. reflexivity.
Qed.

(** X20. In every state a window reaches from its constructor, in
    either mode, [show_user_agent] puts the program's fixed user agent
    on the status bar for five seconds and changes nothing else, as
    long as [self.view] is a view; when it is [None] the slot raises
    [AttributeError] and shows nothing. *)
Theorem show_user_agent_shows_the_fixed_agent
    (incog : bool) (d d1 : filesystem) (b : Browser) (es : list event)
    (sb : StatusBar) :
  Browser_init home incog d = (Ok b, d1) ->
  let w := run home es {| win := b; fs := d1 |} in
  show_user_agent {| core := w; status := sb |} =
    match view (win w) with
    | Some _ =>
        (Ok tt,
         {| core := w; status := showMessage USER_AGENT (Some 5000%nat) sb |})
    | None => (Raise AttributeError, {| core := w; status := sb |})
    end.
Proof.
  intros Hinit w.
  pose proof (Browser_init_fresh _ _ _ _ Hinit)
    as (Hincog & _ & _ & _ & _ & Hviews & _).
  assert (names_are_views (win w)) as (_ & _ & Hv).
  { apply run_names. cbn [win]. eapply Browser_init_names, Hinit. }
  assert (Forall (fun pr => pr = setUrlRequestInterceptor AdBlocker_init
                                   (profile_of home incog))
                 (List.map page_profile (views (win w)))) as Hpr.
  { apply run_profiles; [exact Hincog |]. cbn [win]. rewrite Hviews.
    repeat constructor. }
  unfold show_user_agent, on_core, on_status, bind, self, gets, modify, raise.
  cbn [fst snd core status].
  destruct (view (win w)) as [id|]; [| reflexivity].
  destruct (lookup_lt_is_Some_2 _ _ Hv) as [x Hx]. cbn [core status]. rewrite Hx.
  rewrite Forall_forall in Hpr.
  rewrite (Hpr (page_profile x)).
  - destruct incog; reflexivity.
  - apply list_elem_of_fmap. exists x. split; [reflexivity |].
    eapply list_elem_of_lookup_2, Hx.
Qed.
End Window.

(* ================================================================== *)
(** * The theorems at work on the example disk *)
(* ================================================================== *)

Module Witness.
Import Example.

(** C3 at work: the same URL reported twice enters the history once. *)
Lemma history_append_is_deduplicated_witness :
  NoDup (history (win (run home [urlChanged a_com; urlChanged a_com;
                                  urlChanged b_org] world0))) /\
  history (win (run home [urlChanged a_com; urlChanged a_com; urlChanged b_org]
                    world0)) = [a_com; b_org].
Proof.
  split.
  - apply (proj1 (proj2 (history_append_is_deduplicated home
                           [urlChanged a_com; urlChanged a_com; urlChanged b_org]
                           world0))).
    simpl. apply NoDup_nil_2.
  - vm_compute. reflexivity.
Defined.

(** C4 at work: the scenario of the bookmark already on file, and a new
    one. *)
Lemma add_bookmark_appends_once_witness :
  add_bookmark a_com world0 = (Ok tt, world0) /\
  add_bookmark b_org world0 =
    (Ok tt,
     {| win := with_bookmarks (str_list [a_com; b_org]) window;
        fs := put_file bookmarks_json (dumps (str_list [a_com; b_org])) disk |}).
Proof.
  pose proof (add_bookmark_appends_once home [a_com] a_com world0 eq_refl)
    as (Hsame & _).
  pose proof (add_bookmark_appends_once home [a_com] b_org world0 eq_refl)
    as (_ & Hnew & _).
  split.
  - apply Hsame. right. apply list_elem_of_here.
  - apply Hnew.
    + discriminate.
    + intros H. apply list_elem_of_singleton in H. discriminate.
    + vm_compute. reflexivity.
Defined.

(** C5 at work: a bookmark file cut short loads as no bookmarks. *)
Lemma load_bookmarks_never_raises_witness :
  load_bookmarks bookmarks_json broken_disk = (Ok (PyList []), broken_disk).
Proof.
  destruct (load_bookmarks_never_raises home bookmarks_json broken_disk)
    as (v & Heq & _ & _ & _ & _ & Htext & _).
  destruct (Htext (py "[1, 2") ltac:(vm_compute; reflexivity)
                  ltac:(vm_compute; reflexivity)) as [Hraise _].
  rewrite Heq. f_equal. f_equal.
  apply (Hraise JSONDecodeError). vm_compute. reflexivity.
Defined.

(** C6 at work. *)
Lemma bookmarks_survive_save_and_load_witness :
  exists L,
    bookmarks (win (post home (add_bookmark_triggered b_org) world0)) =
      str_list L /\
    fst (load_bookmarks bookmarks_json
           (fs (post home (add_bookmark_triggered b_org) world0))) =
      Ok (str_list L).
Proof.
  destruct (bookmarks_survive_save_and_load home [a_com] b_org world0)
    as (L & _ & _ & Hmem & Hdisk & _).
  - vm_compute. reflexivity.
  - reflexivity.
  - vm_compute. reflexivity.
  - vm_compute. reflexivity.
  - exists L. split; [exact Hmem | exact Hdisk].
Defined.

(** C7 at work: closing the only tab. *)
Lemma tab_count_stays_positive_witness :
  handle home (tabCloseRequested 0) world0 = (Ok tt, world0) /\
  (1 <= length (tabs (win (run home [new_tab_clicked; tabCloseRequested 0;
                                      tabCloseRequested 0; tabCloseRequested 5]
                                world0))))%nat.
Proof.
  pose proof (tab_count_stays_positive home
                [new_tab_clicked; tabCloseRequested 0%Z;
                 tabCloseRequested 0%Z; tabCloseRequested 5%Z] world0)
    as (Hrun & _ & Hclose).
  split.
  - apply Hclose. reflexivity.
  - apply Hrun. simpl. lia.
Defined.

(** C8 at work: white space around a bare host. *)
Lemma go_to_url_loads_stripped_text_witness :
  url <$> views (win (run home [textEdited (py "  example.com ");
                                returnPressed] world0)) !! 0%nat =
    Some (py "https://example.com").
Proof.
  destruct (go_to_url_loads_stripped_text home (py "  example.com ")
              world0 0%nat eq_refl ltac:(simpl; lia)) as (_ & _ & Hbare).
  rewrite Hbare; [vm_compute; reflexivity |].
  intros [[r H] | [r H]]; vm_compute in H; discriminate.
Defined.

(** C9 at work: an incognito window on the example disk. *)
Lemma incognito_session_leaves_no_trace_witness :
  exists b d1,
    Browser_init home true disk = (Ok b, d1) /\
    history (win (run home [urlChanged a_com; new_tab_clicked;
                            textEdited b_org; returnPressed;
                            tabCloseRequested 0; urlChanged b_org]
                      {| win := b; fs := d1 |})) = [] /\
    fs (run home [urlChanged a_com; new_tab_clicked;
                  textEdited b_org; returnPressed;
                  tabCloseRequested 0; urlChanged b_org]
            {| win := b; fs := d1 |}) = disk.
Proof.
  destruct (Browser_init home true disk) as [[b|e] d1] eqn:Hinit.
  - exists b, d1. split; [reflexivity |].
    destruct (incognito_session_leaves_no_trace home disk d1 b
                [urlChanged a_com; new_tab_clicked; textEdited b_org;
                 returnPressed; tabCloseRequested 0%Z; urlChanged b_org]
                Hinit eq_refl) as (Hh & _ & _ & _ & Hsame & _).
    split; [exact Hh |]. apply Hsame; vm_compute; reflexivity.
  - vm_compute in Hinit. discriminate.
Defined.

(** C10 at work: a bookmark added in an incognito window is there for
    the next window of either mode. *)
Lemma bookmarks_ignore_incognito_witness :
  exists b d1,
    Browser_init home true disk = (Ok b, d1) /\
    bookmarks b = str_list [a_com] /\
    forall incog',
    exists b' d2,
      Browser_init home incog'
        (put_file bookmarks_json (dumps (str_list [a_com; b_org])) d1) =
        (Ok b', d2) /\
      bookmarks b' = str_list [a_com; b_org].
Proof.
  destruct (bookmarks_ignore_incognito home true disk [a_com] b_org)
    as (b & d1 & Hinit & _ & _ & Hbm & _ & Hnext).
  - vm_compute. reflexivity.
  - vm_compute. reflexivity.
  - vm_compute. reflexivity.
  - intros H. vm_compute in H. discriminate.
  - vm_compute. reflexivity.
  - vm_compute. reflexivity.
  - discriminate.
  - intros H. apply list_elem_of_singleton in H. discriminate.
  - exists b, d1. split; [exact Hinit |]. split; [exact Hbm |].
    intros incog'. destruct (Hnext incog') as (b' & d2 & Hinit' & _ & _ & Hbm').
    exists b', d2. split; [exact Hinit' | exact Hbm'].
Defined.

(** X1 at work. *)
Lemma decision_order_independent_witness :
  decision [py "pixel."; py "doubleclick.net"] (py "https://ads.doubleclick.net/x") =
  decision [py "doubleclick.net"; py "pixel."] (py "https://ads.doubleclick.net/x").
Proof. apply decision_order_independent. apply perm_swap. Defined.

(** X2 at work. *)
Lemma every_view_has_the_profile_of_its_window_witness :
  Forall (fun v =>
            page_profile v =
              setUrlRequestInterceptor AdBlocker_init (profile_of home false))
         (views (win (run home [new_tab_clicked; urlChanged a_com] world0))).
Proof.
  apply (every_view_has_the_profile_of_its_window home false disk disk window).
  vm_compute. reflexivity.
Defined.

(** X3 at work: a disk on which the bookmark file is locked. *)
Lemma add_bookmark_write_failure_witness :
  exists e,
    add_bookmark b_org
      {| win := window;
         fs := {| dirs := dirs disk;
                  files := {[ bookmarks_json := Locked ]} |} |} =
      (Raise e,
       {| win := with_bookmarks (str_list [a_com; b_org]) window;
          fs := {| dirs := dirs disk;
                   files := {[ bookmarks_json := Locked ]} |} |}).
Proof.
  destruct (add_bookmark_write_failure [a_com] b_org
              {| win := window;
                 fs := {| dirs := dirs disk;
                          files := {[ bookmarks_json := Locked ]} |} |})
    as (e & He & _).
  - reflexivity.
  - discriminate.
  - intros H. apply list_elem_of_singleton in H. discriminate.
  - vm_compute. reflexivity.
  - exists e. exact He.
Defined.

(** X4 at work: a window whose bookmark file held an empty JSON object. *)
Lemma add_bookmark_on_a_non_list_witness :
  add_bookmark b_org {| win := with_bookmarks (PyDict []) window; fs := disk |} =
    (Raise AttributeError,
     {| win := with_bookmarks (PyDict []) window; fs := disk |}).
Proof.
  apply (add_bookmark_on_a_non_list b_org
           {| win := with_bookmarks (PyDict []) window; fs := disk |}).
  - discriminate.
  - reflexivity.
Defined.




(** X15 at work: the same bookmark asked for twice. *)
Lemma bookmarks_only_grow_witness :
  exists B',
    bookmarks (win (run home [add_bookmark_triggered b_org;
                              add_bookmark_triggered b_org] world0)) =
      str_list ([a_com] ++ B') /\
    NoDup ([a_com] ++ B').
Proof.
  destruct (bookmarks_only_grow home
              [add_bookmark_triggered b_org; add_bookmark_triggered b_org]
              [a_com] world0 eq_refl) as (B' & H1 & _ & _ & H4).
  exists B'. split; [exact H1 |]. apply H4. apply NoDup_singleton.
Defined.

(** X16 at work: a new tab and a bookmark on the example disk. *)
Lemma disk_and_memory_agree_witness :
  load_bookmarks bookmarks_json
    (fs (run home [new_tab_clicked; add_bookmark_triggered b_org] world0)) =
  (Ok (bookmarks (win (run home [new_tab_clicked; add_bookmark_triggered b_org]
                           world0))),
   fs (run home [new_tab_clicked; add_bookmark_triggered b_org] world0)).
Proof.
  apply (disk_and_memory_agree home
           [new_tab_clicked; add_bookmark_triggered b_org] [a_com] world0).
  - reflexivity.
  - reflexivity.
  - vm_compute. reflexivity.
  - vm_compute. reflexivity.
  - vm_compute. reflexivity.
  - vm_compute. reflexivity.
Defined.

(** X17 at work: two windows on the example disk. *)
Lemma second_window_overwrites_bookmarks_witness :
  load_bookmarks bookmarks_json
    (fs (post home (add_bookmark_triggered (py "https://c.net"))
           {| win := window;
              fs := fs (post home (add_bookmark_triggered b_org) world0) |})) =
  (Ok (str_list [a_com; py "https://c.net"]),
   fs (post home (add_bookmark_triggered (py "https://c.net"))
         {| win := window;
            fs := fs (post home (add_bookmark_triggered b_org) world0) |})).
Proof.
  destruct (second_window_overwrites_bookmarks home [a_com] b_org
              (py "https://c.net") window window disk)
    as (_ & _ & H & _).
  - reflexivity.
  - reflexivity.
  - reflexivity.
  - vm_compute. reflexivity.
  - discriminate.
  - discriminate.
  - intros H. apply list_elem_of_singleton in H. discriminate.
  - intros H. apply list_elem_of_singleton in H. discriminate.
  - discriminate.
  - vm_compute. reflexivity.
  - exact H.
Defined.

(** X18 at work: a persistent window, then an incognito one. *)
Lemma Browser_init_outcome_witness :
  exists b b' d1,
    Browser_init home false disk = (Ok b, d1) /\
    Browser_init home true d1 = (Ok b', d1) /\
    bookmarks b' = bookmarks b.
Proof.
  destruct (Browser_init_outcome home false true disk) as [_ H].
  - vm_compute. reflexivity.
  - destruct H as (b & b' & d1 & H1 & _ & _ & H2 & H3).
    + vm_compute. reflexivity.
    + exists b, b', d1. split; [exact H1 |]. split; [exact H2 | exact H3].
Defined.

(** X20 at work: the user agent in a window with a second tab. *)
Lemma show_user_agent_shows_the_fixed_agent_witness :
  show_user_agent
    {| core := run home [new_tab_clicked] world0;
       status := {| message := None; bar_visible := false; bar_value := 0 |} |} =
  (Ok tt,
   {| core := run home [new_tab_clicked] world0;
      status := {| message := Some (USER_AGENT, Some 5000%nat);
                   bar_visible := false; bar_value := 0 |} |}).
Proof.
  etransitivity.
  - apply (show_user_agent_shows_the_fixed_agent home false disk disk window
             [new_tab_clicked]
             {| message := None; bar_visible := false; bar_value := 0 |}).
    vm_compute. reflexivity.
  - reflexivity.
Defined.

End Witness.
